(** * Items API: query/pagination engine, record service and statistics worker

    A shallow embedding of the back end of the items service:

    - [routes/items.js]  : [GET /api/items], [GET /api/items/:id], [POST /api/items]
    - [routes/stats.js]  : [GET /api/stats] and its worker event handlers
    - [utils/worker.js]  : the aggregation run on the worker thread
    - [utils/readData.js], [utils/writeData.js] : whole-file load and save

    JavaScript values are modelled as far as the routes look at them:
    strings are sequences of ASCII code units, numbers are exact rationals
    extended with [NaN] and the two infinities (rounding of doubles is not
    modelled), objects are finite maps from property names to JSON values. *)

From Stdlib Require Import ZArith QArith Qround Qcanon Ascii String Lia.
From Stdlib Require Import DecimalString DecimalPos DecimalZ.
From stdpp Require Import gmap strings list.

Local Open Scope Z_scope.

(** ** JavaScript values and the built-ins the routes call *)

Module JS.

(** A JavaScript Number.  [JSON.parse] yields finite numbers and, for
    literals beyond the double range such as [1e999], an infinity;
    [parseInt] and arithmetic may yield [NaN]. *)
Inductive number :=
| NaN
| Infinity (negative : bool)
| Fin (q : Qc).

(** What [JSON.parse] can return. *)
#[warnings="-register-all"]
Inductive JValue :=
| JNull
| JBool (b : bool)
| JNum (n : number)
| JStr (s : string)
| JArr (l : list JValue)
| JObj (m : gmap string JValue).

(** A plain object; reading a property that is absent gives [undefined],
    modelled by [None]. *)
Abbreviation object := (gmap string JValue).

Definition ofZ (z : Z) : number := Fin (Q2Qc (inject_Z z)).

Definition isNaN (n : number) : bool :=
  match n with NaN => true | _ => false end.

(** [a <= b] on Numbers: false as soon as one side is [NaN]. *)
Definition num_le (a b : number) : bool :=
  match a, b with
  | NaN, _ | _, NaN => false
  | Infinity true, _ => true
  | _, Infinity false => true
  | Infinity false, _ => false
  | _, Infinity true => false
  | Fin x, Fin y => bool_decide (x <= y)%Qc
  end.

(** [a === b] on Numbers: [NaN] differs from everything, itself included. *)
Definition num_eq (a b : number) : bool :=
  match a, b with
  | Fin x, Fin y => bool_decide (x = y)
  | Infinity s, Infinity t => bool_decide (s = t)
  | _, _ => false
  end.

(** [a + b] on Numbers. *)
Definition num_add (a b : number) : number :=
  match a, b with
  | NaN, _ | _, NaN => NaN
  | Infinity s, Infinity t => if bool_decide (s = t) then Infinity s else NaN
  | Infinity s, Fin _ | Fin _, Infinity s => Infinity s
  | Fin x, Fin y => Fin (x + y)%Qc
  end.

(** [a / n] for a positive array length [n]. *)
Definition num_div_length (a : number) (n : nat) : number :=
  match a with
  | NaN => NaN
  | Infinity s => Infinity s
  | Fin x => Fin (x / Q2Qc (inject_Z (Z.of_nat n)))%Qc
  end.

(** [typeof v], with [None] standing for [undefined]. *)
Definition typeof (v : option JValue) : string :=
  match v with
  | None => "undefined"
  | Some (JBool _) => "boolean"
  | Some (JNum _) => "number"
  | Some (JStr _) => "string"
  | Some JNull | Some (JArr _) | Some (JObj _) => "object"
  end.

(** ToBoolean: [undefined], [null], [false], [0], [NaN] and the empty
    string are falsy, everything else is truthy. *)
Definition truthy (v : option JValue) : bool :=
  match v with
  | None | Some JNull => false
  | Some (JBool b) => b
  | Some (JNum NaN) => false
  | Some (JNum (Infinity _)) => true
  | Some (JNum (Fin q)) => negb (bool_decide (q = 0%Qc))
  | Some (JStr s) => negb (String.eqb s "")
  | Some (JArr _) | Some (JObj _) => true
  end.

(** White space and line terminators among the ASCII code units:
    TAB, LF, VT, FF, CR and SP. *)
Definition is_white_space (c : ascii) : bool :=
  let n := Z.of_N (N_of_ascii c) in
  ((9 <=? n) && (n <=? 13)) || (n =? 32).

Fixpoint trimStart (s : string) : string :=
  match s with
  | EmptyString => EmptyString
  | String c s' => if is_white_space c then trimStart s' else s
  end.

Fixpoint trimEnd (s : string) : string :=
  match s with
  | EmptyString => EmptyString
  | String c s' =>
      match trimEnd s' with
      | EmptyString => if is_white_space c then EmptyString else String c EmptyString
      | t => String c t
      end
  end.

(** [s.trim()] *)
Definition trim (s : string) : string := trimEnd (trimStart s).

Definition toLowerChar (c : ascii) : ascii :=
  let n := N_of_ascii c in
  if ((65 <=? n) && (n <=? 90))%N then ascii_of_N (n + 32) else c.

(** [s.toLowerCase()] on ASCII code units. *)
Fixpoint toLowerCase (s : string) : string :=
  match s with
  | EmptyString => EmptyString
  | String c s' => String (toLowerChar c) (toLowerCase s')
  end.

Fixpoint startsWith (s p : string) {struct p} : bool :=
  match p, s with
  | EmptyString, _ => true
  | String _ _, EmptyString => false
  | String b p', String a s' => Ascii.eqb a b && startsWith s' p'
  end.

(** [s.includes(p)]: [p] occurs in [s] at some position. *)
Fixpoint includes (s p : string) : bool :=
  startsWith s p ||
  match s with
  | EmptyString => false
  | String _ s' => includes s' p
  end.

Definition digit_value (c : ascii) : option Z :=
  let n := Z.of_N (N_of_ascii c) in
  if (48 <=? n) && (n <=? 57) then Some (n - 48) else None.

(** Value of the longest run of decimal digits at the start of [s],
    continuing from [acc]; [None] while no digit has been read. *)
Fixpoint digits_prefix (s : string) (acc : option Z) : option Z :=
  match s with
  | EmptyString => acc
  | String c s' =>
      match digit_value c with
      | Some d => digits_prefix s' (Some (10 * default 0 acc + d))
      | None => acc
      end
  end.

(** [parseInt(s, 10)]: skip leading white space, read an optional sign,
    then the longest run of decimal digits; whatever follows is ignored.
    [None] is [NaN] (no digit could be read). *)
Definition parseInt (s : string) : option Z :=
  let t := trimStart s in
  let '(sign, body) :=
    match t with
    | String "-" r => (-1, r)
    | String "+" r => (1, r)
    | _ => (1, t)
    end in
  match digits_prefix body None with
  | None => None
  | Some n => Some (sign * n)
  end.

(** [Math.ceil(a / b)] for integers [a] and [b]: the quotient is taken
    in the rationals and then rounded up. *)
Definition Math_ceil_div (a b : Z) : Z :=
  Qceiling (inject_Z a / inject_Z b).

(** [l.slice(start, end)]: negative indices count from the end, both
    bounds are clamped to the array. *)
Definition slice {A} (l : list A) (first last : Z) : list A :=
  let len := Z.of_nat (length l) in
  let k := if first <? 0 then Z.max (len + first) 0 else Z.min first len in
  let final := if last <? 0 then Z.max (len + last) 0 else Z.min last len in
  take (Z.to_nat (Z.max (final - k) 0)) (drop (Z.to_nat k) l).

(** [String(n)] for an integer Number [n], as in ["/items/" + item.id]:
    its decimal digits, after a minus sign when it is negative. *)
Definition Number_toString (n : Z) : string :=
  NilZero.string_of_int (Z.to_int n).

End JS.

(** ** Errors, the file behind the store, and the monad of a request handler *)

Module Store.
Import JS.

(** [new Error(message)], with the [status] the routes attach to some of
    them ([None] when [err.status] is left undefined). *)
Record Error := { message : string; status : option nat }.

(** What [fs.readFile(DATA_PATH)] followed by [JSON.parse] can meet.  The
    file is identified with the array of records it holds: the text that
    [JSON.stringify] writes and [JSON.parse] reads back is not modelled. *)
Inductive disk :=
| NoFile                        (* readFile rejects with code ENOENT *)
| Unreadable (reason : string)  (* readFile rejects otherwise, or JSON.parse throws *)
| Stored (data : list object).  (* the file holds the serialised array *)

Inductive log_line :=
| DataFileNotFound
| WorkerThreadError (err : Error)
| WorkerStopped (code : Z).

(** Everything outside the handler that the routes read or change. *)
Record World := {
  file : disk;
  write_failure : option string;   (* what writeFile rejects with, if it does *)
  clock : Z;                       (* the reading of Date.now() *)
  readFile_calls : nat;
  writeFile_calls : nat;
  console : list log_line;
}.

(** A handler body: it runs in a world, and either throws or returns. *)
Definition M (A : Type) : Type := World -> (Error + A) * World.

Definition ret {A} (a : A) : M A := fun w => (inr a, w).

Definition throw {A} (e : Error) : M A := fun w => (inl e, w).

Definition bind {A B} (m : M A) (k : A -> M B) : M B :=
  fun w =>
    match m w with
    | (inl e, w') => (inl e, w')
    | (inr a, w') => k a w'
    end.

Notation "'let*' x ':=' m 'in' k" := (bind m (fun x => k))
  (at level 10, x pattern, m at level 100, k at level 200).

(** [array.filter(cb)] for a callback that may throw. *)
Fixpoint filterM {A} (cb : A -> M bool) (l : list A) : M (list A) :=
  match l with
  | [] => ret []
  | x :: l' =>
      let* keep := cb x in
      let* rest := filterM cb l' in
      ret (if keep then x :: rest else rest)
  end.

(** utils/readData.js *)
Definition readData : M (list object) :=
  fun w =>
    let w' := {| file := file w; write_failure := write_failure w; clock := clock w;
                 readFile_calls := S (readFile_calls w);
                 writeFile_calls := writeFile_calls w; console := console w |} in
    match file w with
    | Stored data => (inr data, w')
    | NoFile =>
        (inr [], {| file := file w'; write_failure := write_failure w'; clock := clock w';
                    readFile_calls := readFile_calls w';
                    writeFile_calls := writeFile_calls w';
                    console := console w' ++ [DataFileNotFound] |})
    | Unreadable reason => (inl {| message := reason; status := None |}, w')
    end.

(** utils/writeData.js: the whole array replaces the file. *)
Definition writeData (data : list object) : M unit :=
  fun w =>
    match write_failure w with
    | Some reason =>
        (inl {| message := reason; status := None |},
         {| file := file w; write_failure := write_failure w; clock := clock w;
            readFile_calls := readFile_calls w;
            writeFile_calls := S (writeFile_calls w); console := console w |})
    | None =>
        (inr tt,
         {| file := Stored data; write_failure := write_failure w; clock := clock w;
            readFile_calls := readFile_calls w;
            writeFile_calls := S (writeFile_calls w); console := console w |})
    end.

(** [Date.now()] *)
Definition Date_now : M Z := fun w => (inr (clock w), w).

(** What the client receives. *)
Inductive reply (A : Type) :=
| Sent (code : nat) (body : A)
| Failed (code : nat) (text : string).
Arguments Sent {A} code body.
Arguments Failed {A} code text.

(** The error-handling middleware the test application mounts after the
    routes:
    [res.status(err.status || 500).json({ message: err.message || "Internal Server Error" })]. *)
Definition errorHandler {A} (err : Error) : reply A :=
  Failed (match status err with Some 0%nat | None => 500%nat | Some s => s end)
         (if String.eqb (message err) "" then "Internal Server Error" else message err).

(** A route: [try { ...; res.status(code).json(body) } catch (err) { next(err) }]. *)
Definition route {A} (code : nat) (handler : M A) (w : World) : reply A * World :=
  match handler w with
  | (inr body, w') => (Sent code body, w')
  | (inl err, w') => (errorHandler err, w')
  end.

End Store.

(** ** routes/items.js *)

Module Items.
Import JS Store.

(** [req.query]: each parameter is absent or a string (a parameter given
    several times, which the query parser turns into an array, is not
    modelled). *)
Record Query := { page : option string; limit : option string; q : option string }.

Record Page := {
  items : list object;
  currentPage : Z;
  itemsPerPage : Z;
  totalItems : Z;
  totalPages : Z;
  hasPreviousPage : bool;
  hasNextPage : bool;
}.

Definition invalid_page_or_limit : Error :=
  {| message := "Invalid page or limit parameters. Must be positive numbers.";
     status := Some 400%nat |}.

(** [item.name.toLowerCase()]: a [TypeError] unless [name] is a string. *)
Definition name_toLowerCase (item : object) : M string :=
  match item !! "name" with
  | Some (JStr name) => ret (toLowerCase name)
  | None =>
      throw {| message := "Cannot read properties of undefined (reading 'toLowerCase')";
               status := None |}
  | Some JNull =>
      throw {| message := "Cannot read properties of null (reading 'toLowerCase')";
               status := None |}
  | Some _ =>
      throw {| message := "item.name.toLowerCase is not a function"; status := None |}
  end.

(** The search filter of [GET /api/items] (lines 55-61): applied when
    [q] is truthy, that is, a non-empty string. *)
Definition search (q : option string) (allItems : list object) : M (list object) :=
  match q with
  | None | Some EmptyString => ret allItems
  | Some q =>
      filterM (fun item =>
                 let* name := name_toLowerCase item in
                 ret (includes name (toLowerCase q)))
              allItems
  end.

(** The pagination logic of [GET /api/items] and the body it sends
    (lines 63-102). *)
Definition paginate (filteredItems : list object) (pageNum limitNum : Z) : Page :=
  let totalItems := Z.of_nat (length filteredItems) in
  let totalPages := Math_ceil_div totalItems limitNum in
  let '(pageNum, totalPages, paginatedItems) :=
    if totalItems =? 0 then (1, 0, [])
    else if pageNum >? totalPages then (pageNum, totalPages, [])
    else
      let startIndex := (pageNum - 1) * limitNum in
      let endIndex := startIndex + limitNum in
      (pageNum, totalPages, slice filteredItems startIndex endIndex) in
  {| items := paginatedItems;
     currentPage := pageNum;
     itemsPerPage := limitNum;
     totalItems := totalItems;
     totalPages := totalPages;
     hasPreviousPage := pageNum >? 1;
     hasNextPage := pageNum <? totalPages |}.

(** [GET /api/items]: validation of [page] and [limit] (lines 20-48),
    then the load, the filter and the pagination. *)
Definition getItems (query : Query) : M Page :=
  let* pageNum :=
    match page query with
    | Some rawPage =>
        match parseInt rawPage with
        | None => throw invalid_page_or_limit
        | Some pageNum => if pageNum <? 1 then throw invalid_page_or_limit else ret pageNum
        end
    | None => ret 1
    end in
  let* limitNum :=
    match limit query with
    | Some rawLimit =>
        match parseInt rawLimit with
        | None => throw invalid_page_or_limit
        | Some limitNum => if limitNum <? 1 then throw invalid_page_or_limit else ret limitNum
        end
    | None => ret 2
    end in
  let* allItems := readData in
  let* filteredItems := search (q query) allItems in
  ret (paginate filteredItems pageNum limitNum).

(** [i.id === itemId], where [itemId] is the result of [parseInt]. *)
Definition id_is (itemId : option Z) (i : object) : bool :=
  match i !! "id", itemId with
  | Some (JNum n), Some z => num_eq n (ofZ z)
  | _, _ => false
  end.

Definition item_not_found : Error :=
  {| message := "Item not found"; status := Some 404%nat |}.

(** [GET /api/items/:id] *)
Definition getItemById (id : string) : M object :=
  let* allItems := readData in
  let itemId := parseInt id in
  match List.find (id_is itemId) allItems with
  | None => throw item_not_found
  | Some item => ret item
  end.

(** [!v || typeof v !== "string" || v.trim() === ""]; the last test is
    only reached for a string. *)
Definition not_a_filled_string (v : option JValue) : bool :=
  negb (truthy v)
  || negb (String.eqb (typeof v) "string")
  || match v with
     | Some (JStr s) => String.eqb (trim s) ""
     | _ => false
     end.

(** [v === undefined || typeof v !== "number" || isNaN(v) || v <= 0]; the
    last two tests are only reached for a number. *)
Definition not_a_positive_number (v : option JValue) : bool :=
  match v with None => true | Some _ => false end
  || negb (String.eqb (typeof v) "number")
  || match v with
     | Some (JNum n) => isNaN n || num_le n (ofZ 0)
     | _ => false
     end.

Definition name_required : Error :=
  {| message := "Item name is required and must be a non-empty string.";
     status := Some 400%nat |}.

Definition price_required : Error :=
  {| message := "Item price is required and must be a positive number.";
     status := Some 400%nat |}.

Definition description_required : Error :=
  {| message := "Item category is required and must be a non-empty string.";
     status := Some 400%nat |}.

(** [POST /api/items]; [item] is [req.body]. *)
Definition postItem (item : object) : M object :=
  if not_a_filled_string (item !! "name") then throw name_required
  else if not_a_positive_number (item !! "price") then throw price_required
  else if not_a_filled_string (item !! "description") then throw description_required
  else
    let* data := readData in
    let* now := Date_now in
    let item := <["id" := JNum (ofZ now)]> item in
    let data := data ++ [item] in
    let* _ := writeData data in
    ret item.

End Items.

(** ** utils/worker.js *)

Module Worker.
Import JS.

Record Stats := { total : nat; averagePrice : number }.

(** The right operand of [acc + cur.price] when the sum stays a Number:
    a number as it is, [undefined] as [NaN], [null] and [false] as [0],
    [true] as [1].  For a string, an array or an object [+] concatenates
    strings instead; the aggregation is not modelled there ([None]). *)
Definition addend (price : option JValue) : option number :=
  match price with
  | Some (JNum n) => Some n
  | None => Some NaN
  | Some JNull => Some (ofZ 0)
  | Some (JBool b) => Some (ofZ (if b then 1 else 0))
  | Some (JStr _) | Some (JArr _) | Some (JObj _) => None
  end.

(** [items.reduce((acc, cur) => acc + cur.price, 0)] *)
Definition sumPrices (items : list object) : option number :=
  fold_left
    (fun acc cur =>
       match acc, addend (cur !! "price") with
       | Some acc, Some price => Some (num_add acc price)
       | _, _ => None
       end)
    items (Some (ofZ 0)).

(** The listener of [parentPort.on("message", ...)]: the value it posts
    back to the main thread. *)
Definition on_message (items : list object) : option Stats :=
  let total := length items in
  match sumPrices items with
  | Some sumPrices =>
      let averagePrice :=
        if (0 <? total)%nat then num_div_length sumPrices total else ofZ 0 in
      Some {| total := total; averagePrice := averagePrice |}
  | None => None
  end.

End Worker.

(** ** routes/stats.js *)

Module StatsRoute.
Import JS Store Worker.

(** The two ways the route answers. *)
Inductive call :=
| res_json (stats : Stats)
| next (err : Error).

(** What the worker thread makes the main thread observe. *)
Inductive worker_event :=
| Message (stats : Stats)
| ErrorEvent (err : Error)
| Exit (code : Z).

(** One [GET /api/stats] request in flight. *)
Record Request := {
  world : World;
  calls : list call;            (* res.json and next, in the order made *)
  workers : nat;                (* new Worker(WORKER_PATH) *)
  posted : list (list object);  (* worker.postMessage(items) *)
  terminated : nat;             (* worker.terminate() *)
}.

Definition log (line : log_line) (w : World) : World :=
  {| file := file w; write_failure := write_failure w; clock := clock w;
     readFile_calls := readFile_calls w; writeFile_calls := writeFile_calls w;
     console := console w ++ [line] |}.

(** The body of the handler up to the registration of the listeners. *)
Definition getStats (w : World) : Request :=
  match readData w with
  | (inr items, w') =>
      {| world := w'; calls := []; workers := 1; posted := [items]; terminated := 0 |}
  | (inl err, w') =>
      {| world := w'; calls := [next err]; workers := 0; posted := []; terminated := 0 |}
  end.

(** The three listeners: [worker.on('message')], [worker.on('error')]
    and [worker.on('exit')]. *)
Definition on_event (ev : worker_event) (r : Request) : Request :=
  match ev with
  | Message stats =>
      {| world := world r; calls := calls r ++ [res_json stats];
         workers := workers r; posted := posted r; terminated := S (terminated r) |}
  | ErrorEvent err =>
      {| world := log (WorkerThreadError err) (world r); calls := calls r ++ [next err];
         workers := workers r; posted := posted r; terminated := S (terminated r) |}
  | Exit code =>
      if code =? 0 then r
      else
        {| world := log (WorkerStopped code) (world r); calls := calls r;
           workers := workers r; posted := posted r; terminated := terminated r |}
  end.

(** The listeners run once per event, in the order the events arrive. *)
Definition run (events : list worker_event) (r : Request) : Request :=
  fold_left (fun r ev => on_event ev r) events r.

(** The message the worker thread posts for the items it was sent. *)
Definition worker_reply (r : Request) : list worker_event :=
  match posted r with
  | [items] =>
      match Worker.on_message items with
      | Some stats => [Message stats]
      | None => []
      end
  | _ => []
  end.

Definition answer (c : call) : reply Stats :=
  match c with
  | res_json stats => Sent 200 stats
  | next err => errorHandler err
  end.

End StatsRoute.

(** ** Vocabulary of the specification *)

Module Spec.
Import JS Store Items Worker StatsRoute.

(** The page number (or limit) a query asks for: the default when the
    parameter is absent, the value [parseInt] reads when that is at least
    1, and nothing otherwise. *)
Definition requested (raw : option string) (dflt : Z) : option Z :=
  match raw with
  | None => Some dflt
  | Some s =>
      match parseInt s with
      | Some n => if n <? 1 then None else Some n
      | None => None
      end
  end.

(** The record set a load yields: a missing file counts as the empty set. *)
Definition loaded (d : disk) : option (list object) :=
  match d with
  | Stored data => Some data
  | NoFile => Some []
  | Unreadable _ => None
  end.

(** A record as the data model has it: its [name] is a string. *)
Definition has_name (item : object) : Prop :=
  exists name, item !! "name" = Some (JStr name).

(** The search can run over the set: with a search text every record
    needs a name to compare; without one the names are not looked at. *)
Definition searchable (q : option string) (all : list object) : Prop :=
  match q with
  | None | Some EmptyString => True
  | Some _ => Forall has_name all
  end.


(** "[name], compared case-insensitively, contains [q] as a substring":
    some stretch of [name] equals [q] up to the case of its letters. *)
Definition contains_ignoring_case (name q : string) : Prop :=
  exists pre mid post,
    name = (pre +:+ mid +:+ post)%string /\ toLowerCase mid = toLowerCase q.

(** The records a query with search text [q] is about. *)
Definition matches (q : string) (item : object) : Prop :=
  exists name, item !! "name" = Some (JStr name) /\ contains_ignoring_case name q.

(** The test of the filter callback on one record, as a function. *)
Definition name_includes (q : string) (item : object) : bool :=
  match item !! "name" with
  | Some (JStr name) => includes (toLowerCase name) (toLowerCase q)
  | _ => false
  end.

(** The records a query keeps: all of them without a search text. *)
Definition selected (q : option string) (all : list object) : list object :=
  match q with
  | None | Some EmptyString => all
  | Some q => List.filter (name_includes q) all
  end.

(** "A base-10 integer": an optional sign followed by one or more decimal
    digits and nothing else; [None] for every other string. *)
Fixpoint decimal_digits (s : string) (acc : Z) : option Z :=
  match s with
  | EmptyString => Some acc
  | String c s' =>
      match digit_value c with
      | Some d => decimal_digits s' (10 * acc + d)
      | None => None
      end
  end.

Definition base10_integer (s : string) : option Z :=
  match s with
  | EmptyString => None
  | String "-" EmptyString | String "+" EmptyString => None
  | String "-" r => option_map Z.opp (decimal_digits r 0)
  | String "+" r => decimal_digits r 0
  | _ => decimal_digits s 0
  end.




(** A string with something other than white space in it. *)
Definition filled_string (v : option JValue) : Prop :=
  exists s, v = Some (JStr s) /\ trim s <> EmptyString.

(** A number above zero: a positive rational or plus infinity. *)
Definition positive_number (v : option JValue) : Prop :=
  exists n, v = Some (JNum n)
            /\ (n = Infinity false \/ exists x, n = Fin x /\ (0 < x)%Qc).

(** The payloads [POST /api/items] lets through. *)
Definition accepted (item : object) : Prop :=
  filled_string (item !! "name")
  /\ positive_number (item !! "price")
  /\ filled_string (item !! "description").



(** The answer a worker event triggers, if any. *)
Definition answer_to (ev : worker_event) : option call :=
  match ev with
  | Message stats => Some (res_json stats)
  | ErrorEvent err => Some (next err)
  | Exit _ => None
  end.

End Spec.

(** ** The store of the specification's scenarios *)

Module Scenario.
Import JS Store.

Definition record (id : Z) (name : string) (price : Z) : object :=
  <["id" := JNum (ofZ id)]> (<["name" := JStr name]> (<["price" := JNum (ofZ price)]> ∅)).

Definition Laptop : object := record 1 "Laptop" 1200.
Definition Mouse : object := record 2 "Mouse" 25.
Definition Keyboard : object := record 3 "Keyboard" 50.

Definition records : list object := [Laptop; Mouse; Keyboard].

Definition world : World :=
  {| file := Stored records; write_failure := None; clock := 1718000000000;
     readFile_calls := 0; writeFile_calls := 0; console := [] |}.

(** A body for [POST /api/items] that also carries an id of the client's
    choosing and a field the route knows nothing about. *)
Definition monitor : object :=
  <["id" := JNum (ofZ 7)]>
    (<["name" := JStr "Monitor"]>
       (<["price" := JNum (ofZ 300)]>
          (<["description" := JStr "Display"]>
             (<["colour" := JStr "black"]> ∅)))).


End Scenario.

(** ** Properties of the built-ins *)

Section Builtins.
Import JS.

Lemma Math_ceil_div_opp (a b : Z) :
  0 < b -> Math_ceil_div a b = - ((- a) / b).
Proof.
  intros Hb. unfold Math_ceil_div.
  assert (Heq : (inject_Z a / inject_Z b == a # Z.to_pos b)%Q).
  { unfold Qdiv, Qmult, Qinv, inject_Z, Qeq. simpl.
    destruct b as [|pb|pb]; try lia. simpl. lia. }
  rewrite (Qceiling_comp _ _ Heq).
  unfold Qceiling, Qfloor, Qopp. simpl.
  rewrite Z2Pos.id by lia. reflexivity.
Qed.

(** [Math.ceil(a / b)] is the least integer [n] with [a <= n * b]. *)
Lemma Math_ceil_div_bounds (a b : Z) :
  0 < b -> (Math_ceil_div a b - 1) * b < a <= Math_ceil_div a b * b.
Proof.
  intros Hb. rewrite Math_ceil_div_opp by assumption.
  pose proof (Z.div_mod (- a) b) as Hdm.
  pose proof (Z.mod_pos_bound (- a) b Hb) as Hm.
  nia.
Qed.


(** A window that starts inside the array. *)
Lemma slice_window {A} (l : list A) (first count : Z) :
  0 <= first -> 0 <= count ->
  slice l first (first + count) = take (Z.to_nat count) (drop (Z.to_nat first) l).
Proof.
  intros Hf Hc. unfold slice.
  destruct (Z.ltb_spec first 0); [lia|].
  destruct (Z.ltb_spec (first + count) 0); [lia|].
  set (len := Z.of_nat (length l)).
  destruct (Z.le_gt_cases len first) as [Hge | Hlt].
  - rewrite !drop_ge by lia. rewrite Z.min_r by lia. now rewrite !take_nil.
  - rewrite (Z.min_l first len) by lia.
    destruct (Z.le_gt_cases (first + count) len).
    + rewrite Z.min_l by lia. f_equal. lia.
    + rewrite Z.min_r by lia.
      rewrite (take_ge _ (Z.to_nat count)) by (rewrite length_drop; lia).
      apply take_ge. rewrite length_drop. lia.
Qed.


End Builtins.

(** ** Case-insensitive search *)

Section Search.
Import JS Spec.
Local Open Scope string_scope.

Lemma append_empty_l (s : string) : "" +:+ s = s.
Proof. reflexivity. Qed.

Lemma append_String (a : ascii) (s t : string) :
  String a s +:+ t = String a (s +:+ t).
Proof. reflexivity. Qed.

Lemma startsWith_toLowerCase (p s : string) :
  startsWith (toLowerCase s) (toLowerCase p) = true
  <-> exists mid post, s = mid +:+ post /\ toLowerCase mid = toLowerCase p.
Proof.
  revert s. induction p as [|b p IH]; intros s; simpl.
  - split; [|reflexivity]. intros _. exists "", s. split; reflexivity.
  - destruct s as [|a s]; simpl.
    + split; [discriminate|]. intros (mid & post & Hs & Hmid).
      destruct mid; simpl in *; discriminate.
    + rewrite andb_true_iff, IH. split.
      * intros [Hab (mid & post & -> & Hmid)].
        apply Ascii.eqb_eq in Hab.
        exists (String a mid), post. simpl. rewrite Hab, Hmid. split; reflexivity.
      * intros (mid & post & Hs & Hmid).
        destruct mid as [|c mid]; [discriminate|].
        rewrite append_String in Hs. simpl in Hmid.
        injection Hs as -> ->. injection Hmid as Hc Hmid.
        split; [now apply Ascii.eqb_eq | now exists mid, post].
Qed.

Lemma includes_toLowerCase_split (p s : string) :
  includes (toLowerCase s) p = true
  <-> exists pre rest, s = pre +:+ rest /\ startsWith (toLowerCase rest) p = true.
Proof.
  induction s as [|a s IH].
  - simpl. rewrite orb_false_r. split.
    + intros H. exists "", "". split; [reflexivity | exact H].
    + intros (pre & rest & Hs & H). destruct pre; [|discriminate].
      rewrite append_empty_l in Hs. subst rest. exact H.
  - change (toLowerCase (String a s)) with (String (toLowerChar a) (toLowerCase s)).
    change (includes (String (toLowerChar a) (toLowerCase s)) p)
      with (startsWith (String (toLowerChar a) (toLowerCase s)) p
            || includes (toLowerCase s) p).
    rewrite orb_true_iff, IH. split.
    + intros [H | (pre & rest & -> & H)].
      * exists "", (String a s). split; [reflexivity | exact H].
      * exists (String a pre), rest. split; [reflexivity | exact H].
    + intros (pre & rest & Hs & H). destruct pre as [|c pre].
      * rewrite append_empty_l in Hs. subst rest. left. exact H.
      * rewrite append_String in Hs. injection Hs as -> ->.
        right. now exists pre, rest.
Qed.

(** The test of the filter callback is containment up to letter case. *)
Lemma includes_ignoring_case (name q : string) :
  includes (toLowerCase name) (toLowerCase q) = true
  <-> contains_ignoring_case name q.
Proof.
  rewrite includes_toLowerCase_split. unfold contains_ignoring_case. split.
  - intros (pre & rest & -> & H).
    apply startsWith_toLowerCase in H as (mid & post & -> & Hmid).
    now exists pre, mid, post.
  - intros (pre & mid & post & -> & Hmid).
    exists pre, (mid +:+ post). split; [reflexivity|].
    apply startsWith_toLowerCase. now exists mid, post.
Qed.

End Search.

(** ** Running the handlers of routes/items.js *)

Section ItemsRun.
Import JS Store Items Spec.

Lemma readData_loaded (w : World) (data : list object) :
  loaded (file w) = Some data ->
  exists w', readData w = (inr data, w')
             /\ readFile_calls w' = S (readFile_calls w)
             /\ file w' = file w /\ clock w' = clock w
             /\ write_failure w' = write_failure w
             /\ writeFile_calls w' = writeFile_calls w.
Proof.
  unfold readData, loaded. destruct (file w) eqn:Hfile; intros [= <-];
    eexists; (split; [reflexivity|]); simpl; rewrite ?Hfile; auto.
Qed.

Lemma readData_unreadable (w : World) (reason : string) :
  file w = Unreadable reason ->
  exists w', readData w = (inl {| message := reason; status := None |}, w').
Proof. intros H. unfold readData. rewrite H. eauto. Qed.

Lemma name_includes_matches (q : string) (item : object) :
  name_includes q item = true <-> matches q item.
Proof.
  unfold name_includes, matches. split.
  - destruct (item !! "name") as [[| | |name| |]|] eqn:Hname; try discriminate.
    intros H. exists name. split; [reflexivity|]. now apply includes_ignoring_case.
  - intros (name & -> & H). now apply includes_ignoring_case.
Qed.

Lemma filterM_pure {A} (cb : A -> M bool) (test : A -> bool) (l : list A) (w : World) :
  Forall (fun x => forall w, cb x w = (inr (test x), w)) l ->
  filterM cb l w = (inr (List.filter test l), w).
Proof.
  induction 1 as [|x l Hx _ IH]; [reflexivity|].
  simpl. unfold bind. rewrite Hx, IH. reflexivity.
Qed.

Lemma filterM_names (q : string) (all : list object) (w : World) :
  Forall has_name all ->
  filterM (fun item => let* name := name_toLowerCase item in
                       ret (includes name (toLowerCase q))) all w
  = (inr (List.filter (name_includes q) all), w).
Proof.
  intros H. apply filterM_pure.
  eapply Forall_impl; [exact H|]. intros item [name Hname] w0.
  unfold bind, name_toLowerCase, name_includes. rewrite Hname. reflexivity.
Qed.

Lemma search_selected (q : option string) (all : list object) (w : World) :
  searchable q all -> search q all w = (inr (selected q all), w).
Proof.
  intros H. destruct q as [[|c q]|]; try reflexivity.
  apply filterM_names, H.
Qed.

Lemma searchable_names (q : option string) (all : list object) :
  Forall has_name all -> searchable q all.
Proof. intros H. destruct q as [[|c q]|]; simpl; auto. Qed.

(** Without a search text the names are not looked at. *)
Lemma search_absent (q : option string) (all : list object) (w : World) :
  q = None \/ q = Some EmptyString -> search q all w = (inr all, w).
Proof. intros [-> | ->]; reflexivity. Qed.

Lemma getItems_invalid (query : Query) (w : World) :
  requested (page query) 1 = None \/ requested (limit query) 2 = None ->
  getItems query w = (inl invalid_page_or_limit, w).
Proof.
  unfold requested, getItems, bind.
  destruct (page query) as [rawPage|], (limit query) as [rawLimit|];
    try destruct (parseInt rawPage) as [p|];
    try destruct (parseInt rawLimit) as [l|];
    try destruct (p <? 1); try destruct (l <? 1);
    intros [H | H]; try discriminate H; reflexivity.
Qed.

Lemma getItems_valid (query : Query) (w : World) (p l : Z) :
  requested (page query) 1 = Some p ->
  requested (limit query) 2 = Some l ->
  getItems query w
  = (let* allItems := readData in
     let* filteredItems := search (q query) allItems in
     ret (paginate filteredItems p l)) w.
Proof.
  unfold requested, getItems.
  destruct (page query) as [rawPage|], (limit query) as [rawLimit|];
    try destruct (parseInt rawPage) as [p'|];
    try destruct (parseInt rawLimit) as [l'|];
    try destruct (p' <? 1); try destruct (l' <? 1);
    intros Hp Hl; try discriminate Hp; try discriminate Hl;
    injection Hp as <-; injection Hl as <-; reflexivity.
Qed.

Lemma getItems_run (query : Query) (w : World) (p l : Z) (all : list object) :
  requested (page query) 1 = Some p ->
  requested (limit query) 2 = Some l ->
  loaded (file w) = Some all ->
  searchable (q query) all ->
  exists w', getItems query w = (inr (paginate (selected (q query) all) p l), w')
             /\ readFile_calls w' = S (readFile_calls w).
Proof.
  intros Hp Hl Hload Hnames.
  destruct (readData_loaded w all Hload) as (w' & Hread & Hcalls & _).
  exists w'. split; [|exact Hcalls].
  rewrite (getItems_valid query w p l Hp Hl).
  unfold bind. rewrite Hread, (search_selected _ _ _ Hnames). reflexivity.
Qed.


End ItemsRun.

(** ** Pagination *)

Section Pagination.
Import JS Store Items Spec.

Lemma paginate_empty (p l : Z) :
  paginate [] p l
  = {| items := []; currentPage := 1; itemsPerPage := l; totalItems := 0;
       totalPages := 0; hasPreviousPage := false; hasNextPage := false |}.
Proof. reflexivity. Qed.

Lemma paginate_totalItems (filtered : list object) (p l : Z) :
  totalItems (paginate filtered p l) = Z.of_nat (length filtered).
Proof.
  unfold paginate. destruct (_ =? 0); [reflexivity|].
  destruct (_ >? _); reflexivity.
Qed.


Lemma paginate_beyond (filtered : list object) (p l : Z) :
  filtered <> [] ->
  Math_ceil_div (Z.of_nat (length filtered)) l < p ->
  paginate filtered p l
  = {| items := []; currentPage := p; itemsPerPage := l;
       totalItems := Z.of_nat (length filtered);
       totalPages := Math_ceil_div (Z.of_nat (length filtered)) l;
       hasPreviousPage := p >? 1;
       hasNextPage := p <? Math_ceil_div (Z.of_nat (length filtered)) l |}.
Proof.
  intros Hne Hlt. unfold paginate.
  destruct (Z.eqb_spec (Z.of_nat (length filtered)) 0) as [H0|_].
  - destruct filtered; [congruence | simpl in H0; lia].
  - destruct (Z.gtb_spec p (Math_ceil_div (Z.of_nat (length filtered)) l)); [reflexivity | lia].
Qed.

Lemma paginate_within (filtered : list object) (p l : Z) :
  filtered <> [] ->
  p <= Math_ceil_div (Z.of_nat (length filtered)) l ->
  paginate filtered p l
  = {| items := slice filtered ((p - 1) * l) ((p - 1) * l + l);
       currentPage := p; itemsPerPage := l;
       totalItems := Z.of_nat (length filtered);
       totalPages := Math_ceil_div (Z.of_nat (length filtered)) l;
       hasPreviousPage := p >? 1;
       hasNextPage := p <? Math_ceil_div (Z.of_nat (length filtered)) l |}.
Proof.
  intros Hne Hle. unfold paginate.
  destruct (Z.eqb_spec (Z.of_nat (length filtered)) 0) as [H0|_].
  - destruct filtered; [congruence | simpl in H0; lia].
  - destruct (Z.gtb_spec p (Math_ceil_div (Z.of_nat (length filtered)) l)); [lia | reflexivity].
Qed.







End Pagination.

(** ** Validation of [page] and [limit] *)

Section Validation.
Import JS Store Items Spec.




Lemma digits_prefix_decimal (s : string) (a m : Z) (acc : option Z) :
  decimal_digits s a = Some m ->
  default 0 acc = a ->
  s <> EmptyString \/ acc <> None ->
  digits_prefix s acc = Some m.
Proof.
  revert a acc. induction s as [|c s IH]; intros a acc Hdec Hacc Hne; subst a.
  - injection Hdec as <-. destruct Hne as [Hne | Hne]; [congruence|].
    destruct acc; [reflexivity | congruence].
  - simpl in Hdec. simpl digits_prefix.
    destruct (digit_value c) as [d|]; [|discriminate].
    apply (IH (10 * default 0 acc + d)); [exact Hdec | reflexivity | right; discriminate].
Qed.

Lemma sign_not_digit : digit_value "-" = None /\ digit_value "+" = None.
Proof. split; reflexivity. Qed.

Lemma digit_not_white_space (c : ascii) (d : Z) :
  digit_value c = Some d -> is_white_space c = false.
Proof.
  unfold digit_value, is_white_space.
  destruct (Z.leb_spec 48 (Z.of_N (N_of_ascii c))); [|discriminate].
  intros _.
  destruct (Z.leb_spec (Z.of_N (N_of_ascii c)) 13),
           (Z.eqb_spec (Z.of_N (N_of_ascii c)) 32); lia.
Qed.

Lemma parseInt_digits (c : ascii) (s : string) (d n : Z) :
  digit_value c = Some d ->
  decimal_digits (String c s) 0 = Some n ->
  parseInt (String c s) = Some n.
Proof.
  intros Hd Hdec. unfold parseInt.
  change (trimStart (String c s))
    with (if is_white_space c then trimStart s else String c s).
  rewrite (digit_not_white_space c d Hd).
  assert (Hbody : (let '(sign, body) :=
                     match String c s with
                     | String "-" r => (-1, r)
                     | String "+" r => (1, r)
                     | _ => (1, String c s)
                     end in
                   match digits_prefix body None with
                   | None => None
                   | Some n => Some (sign * n)
                   end)
                  = match digits_prefix (String c s) None with
                    | None => None
                    | Some n => Some (1 * n)
                    end).
  { destruct sign_not_digit as [Hminus Hplus].
    destruct c as [[] [] [] [] [] [] [] []]; try reflexivity;
      congruence. }
  rewrite Hbody.
  rewrite (digits_prefix_decimal (String c s) 0 n None Hdec eq_refl)
    by (left; discriminate).
  f_equal; lia.
Qed.

(** On a string that is a base-10 integer, [parseInt] reads that integer. *)
Lemma parseInt_base10_integer (s : string) (n : Z) :
  base10_integer s = Some n -> parseInt s = Some n.
Proof.
  destruct s as [|c s]; [discriminate|].
  destruct (digit_value c) as [d|] eqn:Hd.
  - intros H. apply (parseInt_digits c s d n Hd).
    destruct sign_not_digit as [Hminus Hplus].
    destruct c as [[] [] [] [] [] [] [] []]; try exact H; congruence.
  - assert (Hsign : c = "-"%char \/ c = "+"%char \/
                    base10_integer (String c s) = decimal_digits (String c s) 0).
    { destruct c as [[] [] [] [] [] [] [] []]; auto. }
    destruct Hsign as [-> | [-> | Hno]].
    + destruct s as [|c' s]; [discriminate|].
      change (base10_integer (String "-" (String c' s)))
        with (option_map Z.opp (decimal_digits (String c' s) 0)).
      destruct (decimal_digits (String c' s) 0) as [m|] eqn:Hm; [|discriminate].
      intros [= <-]. unfold parseInt. simpl trimStart. cbv iota beta.
      rewrite (digits_prefix_decimal (String c' s) 0 m None Hm eq_refl)
        by (left; discriminate).
      f_equal; lia.
    + destruct s as [|c' s]; [discriminate|].
      change (base10_integer (String "+" (String c' s)))
        with (decimal_digits (String c' s) 0).
      intros Hm. unfold parseInt. simpl trimStart. cbv iota beta.
      rewrite (digits_prefix_decimal (String c' s) 0 n None Hm eq_refl)
        by (left; discriminate).
      f_equal; lia.
    + rewrite Hno. simpl. rewrite Hd. discriminate.
Qed.

End Validation.

Section ValidationOrder.
Import JS Store Items Spec.

Lemma filterM_world {A} (cb : A -> M bool) (l : list A) (w : World) :
  (forall x w, snd (cb x w) = w) -> snd (filterM cb l w) = w.
Proof.
  intros Hcb. induction l as [|x l IH]; [reflexivity|].
  simpl. unfold bind at 1. specialize (Hcb x w).
  destruct (cb x w) as [[e|keep] w1]; simpl in Hcb; subst w1; [reflexivity|].
  unfold bind. destruct (filterM cb l w) as [[e|rest] w2]; simpl in IH; subst w2;
    reflexivity.
Qed.

Lemma search_world (q : option string) (all : list object) (w : World) :
  snd (search q all w) = w.
Proof.
  destruct q as [[|c q]|]; try reflexivity.
  apply filterM_world. intros item w0. unfold bind, name_toLowerCase.
  destruct (item !! "name") as [[]|]; reflexivity.
Qed.

Lemma readData_calls (w : World) :
  readFile_calls (snd (readData w)) = S (readFile_calls w).
Proof. unfold readData. destruct (file w); reflexivity. Qed.

(** A request that passes validation loads the store exactly once. *)
Lemma getItems_reads_once (query : Query) (w : World) (p l : Z) :
  requested (page query) 1 = Some p ->
  requested (limit query) 2 = Some l ->
  readFile_calls (snd (getItems query w)) = S (readFile_calls w).
Proof.
  intros Hp Hl. rewrite (getItems_valid query w p l Hp Hl).
  unfold bind at 1. pose proof (readData_calls w) as Hread.
  destruct (readData w) as [[e|all] w1]; simpl in Hread; [exact Hread|].
  unfold bind. pose proof (search_world (q query) all w1) as Hsearch.
  destruct (search (q query) all w1) as [[e|filtered] w2]; simpl in Hsearch; subst w2;
    exact Hread.
Qed.




(** C4. A request whose page or limit is invalid fails before the store
    is read: the handler leaves the world as it found it, so that not one
    [readFile] call has been made; a request that passes validation makes
    exactly one. *)
Theorem validation_precedes_load (query : Query) (w : World) :
  requested (page query) 1 = None \/ requested (limit query) 2 = None ->
  getItems query w = (inl invalid_page_or_limit, w)
  /\ readFile_calls (snd (getItems query w)) = readFile_calls w
  /\ (forall query' p l,
        requested (page query') 1 = Some p ->
        requested (limit query') 2 = Some l ->
        readFile_calls (snd (getItems query' w)) = S (readFile_calls w)).
Proof.
  intros Hbad. pose proof (getItems_invalid query w Hbad) as Hrun.
  split; [exact Hrun|]. split; [now rewrite Hrun|].
  intros query' p l. apply getItems_reads_once.
Qed.

Lemma validation_precedes_load_witness :
  getItems {| page := Some "abc"; limit := Some "-5"; q := None |} Scenario.world
  = (inl invalid_page_or_limit, Scenario.world)
  /\ readFile_calls
       (snd (getItems {| page := Some "abc"; limit := Some "-5"; q := None |}
               Scenario.world))
     = readFile_calls Scenario.world
  /\ (forall query' p l,
        requested (page query') 1 = Some p ->
        requested (limit query') 2 = Some l ->
        readFile_calls (snd (getItems query' Scenario.world))
        = S (readFile_calls Scenario.world)).
Proof.
  apply (validation_precedes_load
           {| page := Some "abc"; limit := Some "-5"; q := None |} Scenario.world).
  left. reflexivity.
Defined.

End ValidationOrder.

(** ** The search filter *)

Section Filter.
Import JS Store Items Spec.

Lemma filter_as_stdpp {A} (test : A -> bool) (l : list A) :
  List.filter test l = filter (fun x => test x = true) l.
Proof.
  induction l as [|x l IH]; [reflexivity|].
  simpl. rewrite filter_cons. destruct (test x) eqn:Hx.
  - rewrite decide_True by reflexivity. now rewrite IH.
  - rewrite decide_False by discriminate. exact IH.
Qed.





End Filter.

(** ** The aggregation *)

Section Aggregation.
Import JS Store Worker StatsRoute Spec.



Lemma num_add_zero_l (a : number) : num_add (ofZ 0) a = a.
Proof.
  destruct a as [|s|x]; try reflexivity.
  unfold ofZ, num_add. f_equal. apply Qcplus_0_l.
Qed.









End Aggregation.

(** ** Lookup by id *)

Section Lookup.
Import JS Store Items Spec.


Lemma find_nothing {A} (test : A -> bool) (l : list A) :
  List.find test l = None <-> Forall (fun y => test y = false) l.
Proof.
  induction l as [|y l IH]; simpl.
  - split; [constructor | reflexivity].
  - destruct (test y) eqn:Hy.
    + split; [discriminate|]. intros H. apply Forall_cons in H as [H _]. congruence.
    + rewrite IH. split; [now constructor | intros H; now apply Forall_cons in H as [_ H]].
Qed.

Lemma num_eq_true (a b : number) : num_eq a b = true -> a = b.
Proof.
  destruct a as [|s|x], b as [|t|y]; simpl; try discriminate.
  - intros H. apply bool_decide_eq_true in H. now subst.
  - intros H. apply bool_decide_eq_true in H. now subst.
Qed.

(** [i.id === itemId] holds exactly for a record whose id is the number
    the path parameter parses to. *)
Lemma id_is_exact (itemId : option Z) (item : object) :
  id_is itemId item = true
  <-> exists z, itemId = Some z /\ item !! "id" = Some (JNum (ofZ z)).
Proof.
  unfold id_is. split.
  - destruct (item !! "id") as [[| |n| | |]|]; try discriminate.
    destruct itemId as [z|]; [|discriminate].
    intros H. apply num_eq_true in H. subst n. now exists z.
  - intros (z & -> & ->). unfold num_eq, ofZ. now apply bool_decide_eq_true.
Qed.



End Lookup.

(** ** The listeners of the statistics route *)

Section WorkerEvents.
Import JS Store Worker StatsRoute Spec.

Lemma on_event_calls (ev : worker_event) (r : Request) :
  calls (on_event ev r) = calls r ++ option_list (answer_to ev).
Proof.
  destruct ev as [stats|err|code]; simpl; try reflexivity.
  destruct (code =? 0); simpl; now rewrite app_nil_r.
Qed.

Lemma on_event_workers (ev : worker_event) (r : Request) :
  workers (on_event ev r) = workers r /\ posted (on_event ev r) = posted r.
Proof.
  destruct ev as [stats|err|code]; simpl; auto.
  destruct (code =? 0); auto.
Qed.

Lemma run_calls (events : list worker_event) (r : Request) :
  calls (run events r) = calls r ++ omap answer_to events.
Proof.
  revert r. induction events as [|ev events IH]; intros r.
  - simpl. now rewrite app_nil_r.
  - change (run (ev :: events) r) with (run events (on_event ev r)).
    rewrite IH, on_event_calls, <- app_assoc. f_equal.
    destruct ev; reflexivity.
Qed.

Lemma run_workers (events : list worker_event) (r : Request) :
  workers (run events r) = workers r /\ posted (run events r) = posted r.
Proof.
  revert r. induction events as [|ev events IH]; intros r; [auto|].
  change (run (ev :: events) r) with (run events (on_event ev r)).
  destruct (IH (on_event ev r)) as [-> ->]. apply on_event_workers.
Qed.

(** C9. An error event of the worker is passed to [next] once, the
    worker is terminated, and no worker is created and no message posted
    again; an exit event is logged when its code is not zero and answers
    nothing, so that over any sequence of events the answers are those of
    the message and error events alone, in their order, and an exit that
    follows an error or a result adds no second answer. *)
Theorem worker_error_propagates_and_exit_is_silent
    (r : Request) (err : Error) (code : Z) (events : list worker_event) :
  (calls (on_event (ErrorEvent err) r) = calls r ++ [next err]
   /\ answer (next err) = errorHandler err
   /\ terminated (on_event (ErrorEvent err) r) = S (terminated r)
   /\ workers (on_event (ErrorEvent err) r) = workers r
   /\ posted (on_event (ErrorEvent err) r) = posted r)
  /\ (calls (on_event (Exit code) r) = calls r
      /\ workers (on_event (Exit code) r) = workers r
      /\ posted (on_event (Exit code) r) = posted r
      /\ console (world (on_event (Exit code) r))
         = if code =? 0 then console (world r)
           else console (world r) ++ [WorkerStopped code])
  /\ (calls (run events r) = calls r ++ omap answer_to events
      /\ workers (run events r) = workers r
      /\ posted (run events r) = posted r)
  /\ (forall w items,
        loaded (file w) = Some items ->
        calls (run [ErrorEvent err; Exit code] (getStats w)) = [next err]
        /\ workers (run [ErrorEvent err; Exit code] (getStats w)) = 1%nat
        /\ posted (run [ErrorEvent err; Exit code] (getStats w)) = [items]
        /\ calls (run [Exit code] (getStats w)) = []
        /\ (forall stats,
              calls (run [Message stats; Exit code] (getStats w)) = [res_json stats])).
Proof.
  split. { repeat split; reflexivity. }
  split.
  { simpl. destruct (code =? 0); repeat split; reflexivity. }
  split. { split; [apply run_calls | apply run_workers]. }
  intros w items Hload.
  destruct (readData_loaded w items Hload) as (w' & Hread & _).
  assert (Hstart : getStats w
                   = {| world := w'; calls := []; workers := 1; posted := [items];
                        terminated := 0 |})
    by (unfold getStats; now rewrite Hread).
  destruct (run_workers [ErrorEvent err; Exit code] (getStats w)) as [-> ->].
  rewrite !run_calls, Hstart. simpl.
  repeat split; try reflexivity.
  intros stats. destruct (code =? 0); reflexivity.
Qed.

Lemma worker_error_propagates_and_exit_is_silent_witness :
  calls (run [ErrorEvent {| message := "out of memory"; status := None |}; Exit 1]
           (getStats Scenario.world))
  = [next {| message := "out of memory"; status := None |}]
  /\ workers (run [ErrorEvent {| message := "out of memory"; status := None |}; Exit 1]
                (getStats Scenario.world)) = 1%nat
  /\ posted (run [ErrorEvent {| message := "out of memory"; status := None |}; Exit 1]
               (getStats Scenario.world)) = [Scenario.records]
  /\ calls (run [Exit 1] (getStats Scenario.world)) = []
  /\ (forall stats,
        calls (run [Message stats; Exit 1] (getStats Scenario.world))
        = [res_json stats]).
Proof.
  apply (worker_error_propagates_and_exit_is_silent
           (getStats Scenario.world)
           {| message := "out of memory"; status := None |} 1 []).
  reflexivity.
Defined.

End WorkerEvents.

(** ** Creation *)

Section Creation.
Import JS Store Items Spec.

Lemma trim_empty : trim EmptyString = EmptyString.
Proof. reflexivity. Qed.

Lemma not_a_filled_string_false (v : option JValue) :
  not_a_filled_string v = false <-> filled_string v.
Proof.
  unfold not_a_filled_string, filled_string.
  destruct v as [[| |n|s| |]|]; simpl;
    try (split; [discriminate | intros (s' & [=] & _)]).
  - destruct b; (split; [discriminate | intros (s' & [=] & _)]).
  - destruct n as [| |x]; try destruct (bool_decide (x = 0%Qc));
      (split; [discriminate | intros (s' & [=] & _)]).
  - split.
    + intros H. apply orb_false_iff in H as [_ H].
      exists s. split; [reflexivity|]. intros Heq. rewrite Heq in H. discriminate.
    + intros (s' & [= <-] & Hs).
      destruct (String.eqb_spec s EmptyString) as [-> | _]; [now rewrite trim_empty in Hs|].
      destruct (String.eqb_spec (trim s) EmptyString); [contradiction | reflexivity].
Qed.

Lemma not_a_positive_number_false (v : option JValue) :
  not_a_positive_number v = false <-> positive_number v.
Proof.
  unfold not_a_positive_number, positive_number.
  destruct v as [[| |n|s| |]|]; simpl;
    try (split; [discriminate | intros (n' & [=] & _)]).
  destruct n as [|[]|x]; simpl.
  - split; [discriminate | intros (n' & [= <-] & [H | (x & H & _)]); discriminate].
  - split; [discriminate | intros (n' & [= <-] & [H | (x & H & _)]); discriminate].
  - split; [intros _; exists (Infinity false); auto | reflexivity].
  - split.
    + intros H. apply bool_decide_eq_false in H. apply Qcnot_le_lt in H.
      exists (Fin x). split; [reflexivity|]. right. now exists x.
    + intros (n' & [= <-] & [H | (y & [= <-] & Hy)]); [discriminate|].
      apply bool_decide_eq_false. now apply Qclt_not_le.
Qed.


Lemma postItem_accepts (item : object) (w : World) (data : list object) :
  accepted item ->
  loaded (file w) = Some data ->
  write_failure w = None ->
  exists w',
    postItem item w = (inr (<["id" := JNum (ofZ (clock w))]> item), w')
    /\ file w' = Stored (data ++ [<["id" := JNum (ofZ (clock w))]> item])
    /\ readFile_calls w' = S (readFile_calls w)
    /\ writeFile_calls w' = S (writeFile_calls w).
Proof.
  unfold accepted. rewrite <- !not_a_filled_string_false, <- not_a_positive_number_false.
  intros (Hname & Hprice & Hdescription) Hload Hwrite.
  destruct (readData_loaded w data Hload)
    as (w1 & Hread & Hreads & _ & Hclock & Hfailure & Hwrites).
  unfold postItem. rewrite Hname, Hprice, Hdescription.
  unfold bind, Date_now. rewrite Hread. unfold writeData.
  rewrite Hfailure, Hwrite, Hclock. eexists. split; [reflexivity|].
  simpl. rewrite Hreads, Hwrites. auto.
Qed.


End Creation.

Section CreationProperties.
Import JS Store Items Spec.






End CreationProperties.

(** ** The scenarios of the specification *)

Section Scenarios.
Import JS Store Items Worker StatsRoute Spec.

Example first_page_of_two :
  fst (route 200 (getItems {| page := None; limit := Some "2"; q := None |})
         Scenario.world)
  = Sent 200 {| items := [Scenario.Laptop; Scenario.Mouse]; currentPage := 1;
                itemsPerPage := 2; totalItems := 3; totalPages := 2;
                hasPreviousPage := false; hasNextPage := true |}.
Proof. reflexivity. Qed.

Example second_page_of_two :
  fst (route 200 (getItems {| page := Some "2"; limit := Some "2"; q := None |})
         Scenario.world)
  = Sent 200 {| items := [Scenario.Keyboard]; currentPage := 2;
                itemsPerPage := 2; totalItems := 3; totalPages := 2;
                hasPreviousPage := true; hasNextPage := false |}.
Proof. reflexivity. Qed.

Example page_beyond_the_end :
  fst (route 200 (getItems {| page := Some "100"; limit := Some "2"; q := None |})
         Scenario.world)
  = Sent 200 {| items := []; currentPage := 100;
                itemsPerPage := 2; totalItems := 3; totalPages := 2;
                hasPreviousPage := true; hasNextPage := false |}.
Proof. reflexivity. Qed.

Example nothing_found :
  fst (route 200 (getItems {| page := Some "7"; limit := None; q := Some "nonexistent" |})
         Scenario.world)
  = Sent 200 {| items := []; currentPage := 1;
                itemsPerPage := 2; totalItems := 0; totalPages := 0;
                hasPreviousPage := false; hasNextPage := false |}.
Proof. reflexivity. Qed.

Example Mouse_is_found :
  name_includes "mo" Scenario.Mouse = true
  /\ name_includes "MOUSE" Scenario.Mouse = true
  /\ name_includes "ouse" Scenario.Mouse = true
  /\ name_includes "mice" Scenario.Mouse = false.
Proof. repeat split; reflexivity. Qed.

Example negative_limit_is_rejected :
  route 200 (getItems {| page := None; limit := Some "-5"; q := None |}) Scenario.world
  = (Failed 400 "Invalid page or limit parameters. Must be positive numbers.",
     Scenario.world).
Proof. reflexivity. Qed.

Example no_item_99 :
  fst (route 200 (getItemById "99") Scenario.world) = Failed 404 "Item not found".
Proof. reflexivity. Qed.

Example item_3 :
  fst (route 200 (getItemById "3") Scenario.world) = Sent 200 Scenario.Keyboard.
Proof. reflexivity. Qed.

(** A search over a record without a name is a [TypeError], answered 500. *)
Example search_over_a_nameless_record :
  fst (search (Some "mo") [Scenario.Mouse; ∅] Scenario.world)
  = inl {| message := "Cannot read properties of undefined (reading 'toLowerCase')";
           status := None |}.
Proof. reflexivity. Qed.

End Scenarios.

(** ** Walking through the pages *)

Section Pages.
Import JS Store Items Spec.


Lemma paginate_items_within (filtered : list object) (p l : Z) :
  1 <= l -> 1 <= p ->
  filtered <> [] ->
  p <= Math_ceil_div (Z.of_nat (length filtered)) l ->
  items (paginate filtered p l)
  = take (Z.to_nat l) (drop (Z.to_nat ((p - 1) * l)) filtered).
Proof.
  intros Hl Hp Hne Hle. rewrite (paginate_within _ _ _ Hne Hle). simpl.
  apply slice_window; [apply Z.mul_nonneg_nonneg|]; lia.
Qed.

Lemma paginate_items_beyond (filtered : list object) (p l : Z) :
  Math_ceil_div (Z.of_nat (length filtered)) l < p ->
  items (paginate filtered p l) = [].
Proof.
  intros Hgt. destruct (decide (filtered = [])) as [-> | Hne]; [reflexivity|].
  now rewrite (paginate_beyond _ _ _ Hne Hgt).
Qed.

(** A page within bounds starts inside the list. *)
Lemma page_start_inside (n p l : Z) :
  1 <= l -> 1 <= p -> p <= Math_ceil_div n l -> (p - 1) * l < n.
Proof.
  intros Hl Hp Hle. pose proof (Math_ceil_div_bounds n l ltac:(lia)) as [Hlow _].
  assert ((p - 1) * l <= (Math_ceil_div n l - 1) * l)
    by (apply Z.mul_le_mono_nonneg_r; lia).
  lia.
Qed.




(** X2. Whatever page is asked for, the items sent are at most [limit]
    many and form a stretch of consecutive records of the filtered set. *)
Theorem page_is_a_bounded_stretch (filtered : list object) (p l : Z) :
  1 <= l -> 1 <= p ->
  Z.of_nat (length (items (paginate filtered p l))) <= l
  /\ exists before after,
       filtered = before ++ items (paginate filtered p l) ++ after.
Proof.
  intros Hl Hp.
  destruct (Z.le_gt_cases p (Math_ceil_div (Z.of_nat (length filtered)) l)) as [Hle | Hgt].
  - destruct (decide (filtered = [])) as [-> | Hne].
    { rewrite paginate_empty. simpl. split; [lia|]. now exists [], []. }
    rewrite paginate_items_within by assumption. split.
    + rewrite length_take. lia.
    + exists (take (Z.to_nat ((p - 1) * l)) filtered),
             (drop (Z.to_nat l) (drop (Z.to_nat ((p - 1) * l)) filtered)).
      now rewrite take_drop, take_drop.
  - rewrite paginate_items_beyond by assumption. simpl. split; [lia|].
    exists filtered, []. now rewrite app_nil_r.
Qed.

Lemma page_is_a_bounded_stretch_witness :
  Z.of_nat (length (items (paginate Scenario.records 2 2))) <= 2
  /\ exists before after,
       Scenario.records = before ++ items (paginate Scenario.records 2 2) ++ after.
Proof.
  apply (page_is_a_bounded_stretch Scenario.records 2 2); lia.
Defined.

(** X3. [hasNextPage] is reported exactly when the following page holds
    at least one record; and when it is reported, the page sent is full
    ([limit] records) and the following page reports its own number. *)
Theorem next_page_flag_is_sound (filtered : list object) (p l : Z) :
  1 <= l -> 1 <= p ->
  (hasNextPage (paginate filtered p l) = true
   <-> items (paginate filtered (p + 1) l) <> [])
  /\ (hasNextPage (paginate filtered p l) = true ->
      Z.of_nat (length (items (paginate filtered p l))) = l
      /\ currentPage (paginate filtered (p + 1) l) = p + 1
      /\ hasPreviousPage (paginate filtered (p + 1) l) = true).
Proof.
  intros Hl Hp. set (n := Z.of_nat (length filtered)).
  destruct (decide (filtered = [])) as [-> | Hne].
  { rewrite !paginate_empty. simpl. split; [split; [discriminate | congruence] | discriminate]. }
  pose proof (Math_ceil_div_bounds n l ltac:(lia)) as [Hlow Hup].
  assert (Hnext : hasNextPage (paginate filtered p l) = true
                  <-> p + 1 <= Math_ceil_div n l).
  { destruct (Z.le_gt_cases p (Math_ceil_div n l)) as [Hle | Hgt].
    - rewrite (paginate_within _ _ _ Hne Hle). simpl. fold n. rewrite Z.ltb_lt. lia.
    - rewrite (paginate_beyond _ _ _ Hne Hgt). simpl. fold n. rewrite Z.ltb_lt. lia. }
  split.
  - rewrite Hnext. split.
    + intros Hle. rewrite paginate_items_within by (assumption || (fold n; lia)).
      pose proof (page_start_inside n (p + 1) l ltac:(lia) ltac:(lia) Hle) as Hin.
      assert (Hlen : length (take (Z.to_nat l)
                              (drop (Z.to_nat ((p + 1 - 1) * l)) filtered)) <> 0%nat).
      { rewrite length_take, length_drop. unfold n in Hin. lia. }
      intros Hnil. now rewrite Hnil in Hlen.
    + intros Hitems. destruct (Z.le_gt_cases (p + 1) (Math_ceil_div n l)) as [Hle | Hgt];
        [exact Hle|].
      now rewrite paginate_items_beyond in Hitems by (fold n; lia).
  - intros Hflag. apply Hnext in Hflag.
    rewrite paginate_items_within by (assumption || (fold n; lia)).
    rewrite (paginate_within filtered (p + 1) l Hne) by (fold n; lia). simpl.
    pose proof (page_start_inside n (p + 1) l ltac:(lia) ltac:(lia) Hflag) as Hin.
    assert (Hstart : 0 <= (p - 1) * l) by (apply Z.mul_nonneg_nonneg; lia).
    split; [|split; [reflexivity | apply Z.gtb_lt; lia]].
    rewrite length_take, length_drop. unfold n in Hin. lia.
Qed.

Lemma next_page_flag_is_sound_witness :
  (hasNextPage (paginate Scenario.records 1 2) = true
   <-> items (paginate Scenario.records (1 + 1) 2) <> [])
  /\ (hasNextPage (paginate Scenario.records 1 2) = true ->
      Z.of_nat (length (items (paginate Scenario.records 1 2))) = 2
      /\ currentPage (paginate Scenario.records (1 + 1) 2) = 1 + 1
      /\ hasPreviousPage (paginate Scenario.records (1 + 1) 2) = true).
Proof.
  apply (next_page_flag_is_sound Scenario.records 1 2); lia.
Defined.

End Pages.

Section PageOfARecord.
Import JS Store Items Spec.





End PageOfARecord.

(** ** More on the search *)

Section SearchText.
Import JS Store Items Spec.
Local Open Scope string_scope.

Lemma append_assoc (a b c : string) : (a +:+ b) +:+ c = a +:+ (b +:+ c).
Proof.
  induction a as [|x a IH]; [reflexivity|].
  rewrite !append_String. now rewrite IH.
Qed.

Lemma toLowerCase_append (a b : string) :
  toLowerCase (a +:+ b) = toLowerCase a +:+ toLowerCase b.
Proof.
  induction a as [|x a IH]; [reflexivity|].
  rewrite append_String. simpl. rewrite IH. reflexivity.
Qed.

Lemma toLowerCase_split (s x y : string) :
  toLowerCase s = x +:+ y ->
  exists s1 s2, s = s1 +:+ s2 /\ toLowerCase s1 = x /\ toLowerCase s2 = y.
Proof.
  revert s. induction x as [|c x IH]; intros s H.
  - exists "", s. auto.
  - destruct s as [|d s]; [discriminate|].
    rewrite append_String in H. simpl in H. injection H as Hc H.
    destruct (IH s H) as (s1 & s2 & -> & H1 & H2).
    exists (String d s1), s2. simpl. rewrite Hc, H1. auto.
Qed.

Lemma contains_ignoring_case_trans (name wide narrow : string) :
  contains_ignoring_case name wide ->
  contains_ignoring_case wide narrow ->
  contains_ignoring_case name narrow.
Proof.
  intros (pre & mid & post & -> & Hmid) (a & m & b & -> & Hm).
  rewrite !toLowerCase_append in Hmid.
  apply toLowerCase_split in Hmid as (a' & rest & -> & Ha & Hrest).
  apply toLowerCase_split in Hrest as (m' & b' & -> & Hm' & Hb).
  exists (pre +:+ a'), m', (b' +:+ post). split; [|congruence].
  now rewrite !append_assoc.
Qed.

Lemma toLowerCase_nonempty (a b : string) :
  toLowerCase a = toLowerCase b -> a = "" <-> b = "".
Proof.
  destruct a, b; simpl; intros H; split; intros E; try discriminate; reflexivity.
Qed.

Lemma search_case (q1 q2 : string) (all : list object) (w : World) :
  toLowerCase q1 = toLowerCase q2 ->
  search (Some q1) all w = search (Some q2) all w.
Proof.
  intros H. destruct q1 as [|c1 q1], q2 as [|c2 q2]; try discriminate; [reflexivity|].
  unfold search. now rewrite H.
Qed.

(** X6. Two requests that differ only in the letter case of the search
    text get the same answer, on every store. *)
Theorem search_text_case_is_ignored (query1 query2 : Query) (q1 q2 : string) (w : World) :
  page query1 = page query2 ->
  limit query1 = limit query2 ->
  q query1 = Some q1 ->
  q query2 = Some q2 ->
  toLowerCase q1 = toLowerCase q2 ->
  getItems query1 w = getItems query2 w.
Proof.
  intros Hpage Hlimit Hq1 Hq2 Hcase.
  destruct (requested (page query2) 1) as [p|] eqn:Hp;
    [destruct (requested (limit query2) 2) as [l|] eqn:Hl|].
  - rewrite (getItems_valid query1 w p l), (getItems_valid query2 w p l)
      by congruence.
    unfold bind. destruct (readData w) as [[e|all] w1]; [reflexivity|].
    rewrite Hq1, Hq2. now rewrite (search_case q1 q2 all w1 Hcase).
  - rewrite !getItems_invalid; [reflexivity | now right | right; congruence].
  - rewrite !getItems_invalid; [reflexivity | now left | left; congruence].
Qed.

Lemma search_text_case_is_ignored_witness :
  getItems {| page := None; limit := None; q := Some "MOUSE" |} Scenario.world
  = getItems {| page := None; limit := None; q := Some "mouse" |} Scenario.world.
Proof.
  apply (search_text_case_is_ignored
           {| page := None; limit := None; q := Some "MOUSE" |}
           {| page := None; limit := None; q := Some "mouse" |}
           "MOUSE" "mouse" Scenario.world); reflexivity.
Defined.

Lemma name_includes_narrow (wide narrow : string) (item : object) :
  contains_ignoring_case narrow wide ->
  name_includes narrow item = true -> name_includes wide item = true.
Proof.
  rewrite !name_includes_matches. intros Hq (name & Hname & Hin).
  exists name. split; [exact Hname|]. eapply contains_ignoring_case_trans; eassumption.
Qed.

Lemma filter_filter_implied {A} (f g : A -> bool) (l : list A) :
  (forall x, f x = true -> g x = true) ->
  List.filter f (List.filter g l) = List.filter f l.
Proof.
  intros Himp. induction l as [|x l IH]; [reflexivity|].
  simpl. destruct (g x) eqn:Hg; simpl.
  - now rewrite IH.
  - destruct (f x) eqn:Hf; [|exact IH]. apply Himp in Hf. congruence.
Qed.

(** X7. A longer search text narrows the result: when the text [wide]
    occurs in the text [narrow] up to letter case, the records kept for
    [narrow] are among those kept for [wide], in the same order, and are
    what a search for [narrow] within the records kept for [wide] gives. *)
Theorem longer_search_text_narrows
    (wide narrow : string) (all : list object) (w : World) :
  Forall has_name all ->
  wide <> "" ->
  contains_ignoring_case narrow wide ->
  exists kept_narrow kept_wide,
    search (Some narrow) all w = (inr kept_narrow, w)
    /\ search (Some wide) all w = (inr kept_wide, w)
    /\ sublist kept_narrow kept_wide
    /\ search (Some narrow) kept_wide w = (inr kept_narrow, w).
Proof.
  intros Hnames Hwide Hin.
  assert (Hnarrow : narrow <> "").
  { intros ->. destruct Hin as (pre & mid & post & Heq & Hmid).
    destruct pre; [|discriminate]. destruct mid; [|discriminate].
    destruct wide; [congruence | discriminate]. }
  assert (Hsel : forall text other, text <> "" ->
                 selected (Some text) other = List.filter (name_includes text) other).
  { intros text other Htext. destruct text; [congruence | reflexivity]. }
  assert (Hkept : Forall has_name (List.filter (name_includes wide) all)).
  { rewrite filter_as_stdpp. apply Forall_forall. intros item Hitem.
    apply list_elem_of_filter in Hitem as [_ Hitem].
    rewrite Forall_forall in Hnames. now apply Hnames. }
  exists (List.filter (name_includes narrow) all), (List.filter (name_includes wide) all).
  rewrite !(search_selected _ _ _ (searchable_names _ _ Hnames)).
  rewrite (search_selected _ _ _ (searchable_names _ _ Hkept)).
  rewrite !Hsel by assumption.
  assert (Hagain : List.filter (name_includes narrow) (List.filter (name_includes wide) all)
                   = List.filter (name_includes narrow) all).
  { apply filter_filter_implied. intros item. now apply name_includes_narrow. }
  split; [reflexivity|]. split; [reflexivity|]. split; [|now rewrite Hagain].
  rewrite <- Hagain, (filter_as_stdpp (name_includes narrow)). apply sublist_filter.
Qed.

Lemma longer_search_text_narrows_witness :
  exists kept_narrow kept_wide,
    search (Some "Mouse") Scenario.records Scenario.world = (inr kept_narrow, Scenario.world)
    /\ search (Some "o") Scenario.records Scenario.world = (inr kept_wide, Scenario.world)
    /\ sublist kept_narrow kept_wide
    /\ search (Some "Mouse") kept_wide Scenario.world = (inr kept_narrow, Scenario.world).
Proof.
  apply (longer_search_text_narrows "o" "Mouse" Scenario.records Scenario.world).
  - repeat constructor; eexists; reflexivity.
  - discriminate.
  - exists "M", "o", "use". split; reflexivity.
Defined.

End SearchText.

(** ** Records without a name, missing and unreadable files *)

Section Failures.
Import JS Store Items Worker StatsRoute Spec.

Lemma errorHandler_500 {A} (err : Error) :
  status err = None -> message err <> EmptyString ->
  @errorHandler A err = Failed 500 (message err).
Proof.
  intros Hs Hm. unfold errorHandler. rewrite Hs.
  destruct (String.eqb_spec (message err) EmptyString); [contradiction | reflexivity].
Qed.

Lemma name_toLowerCase_throws (item : object) (w : World) :
  ~ has_name item ->
  exists err, name_toLowerCase item w = (inl err, w)
              /\ status err = None /\ message err <> EmptyString.
Proof.
  intros Hno. unfold name_toLowerCase.
  destruct (item !! "name") as [[| | |name| |]|] eqn:Hname;
    try (eexists; split; [reflexivity|]; split; [reflexivity | discriminate]).
  exfalso. apply Hno. now exists name.
Qed.

Lemma filterM_throws {A} (cb : A -> M bool) (bad : A -> Prop) (P : Error -> Prop)
    (l : list A) (w : World) :
  (forall x w, (exists keep, cb x w = (inr keep, w))
               \/ (bad x /\ exists err, cb x w = (inl err, w) /\ P err)) ->
  (forall x w keep, cb x w = (inr keep, w) -> ~ bad x) ->
  Exists bad l ->
  exists err, filterM cb l w = (inl err, w) /\ P err.
Proof.
  intros Hcb Hgood Hex. induction l as [|x l IH]; [now apply Exists_nil in Hex|].
  simpl. unfold bind at 1.
  destruct (Hcb x w) as [[keep Hkeep] | (_ & err & Herr & HP)].
  - rewrite Hkeep. apply Exists_cons in Hex as [Hhead | Htail].
    + exfalso. exact (Hgood x w keep Hkeep Hhead).
    + destruct (IH Htail) as (err & Hrest & HP).
      unfold bind. rewrite Hrest. now exists err.
  - rewrite Herr. now exists err.
Qed.

Lemma search_throws (text : string) (all : list object) (w : World) :
  text <> EmptyString ->
  Exists (fun item => ~ has_name item) all ->
  exists err, search (Some text) all w = (inl err, w)
              /\ status err = None /\ message err <> EmptyString.
Proof.
  intros Htext Hex. destruct text as [|c text]; [congruence|].
  unfold search.
  apply (filterM_throws _ (fun item => ~ has_name item)
           (fun err => status err = None /\ message err <> EmptyString)).
  - intros item w0. unfold bind.
    destruct (item !! "name") as [[| | |name| |]|] eqn:Hname;
      try (right; split; [intros [name' H']; congruence|];
           destruct (name_toLowerCase_throws item w0) as (err & -> & Hs & Hm);
           [intros [name' H']; congruence | now exists err]).
    left. unfold name_toLowerCase. rewrite Hname. eexists. reflexivity.
  - intros item w0 keep Hrun Hno. unfold bind in Hrun.
    destruct (name_toLowerCase_throws item w0 Hno) as (err & Herr & _).
    rewrite Herr in Hrun. discriminate.
  - exact Hex.
Qed.

(** X8. A search text over a store in which some record has no string
    [name] fails with a [TypeError], answered 500, after the one load;
    the same request without the search text is answered 200. *)
Theorem search_fails_on_a_record_without_name
    (query : Query) (w : World) (text : string) (p l : Z) (all : list object) :
  q query = Some text ->
  text <> EmptyString ->
  requested (page query) 1 = Some p ->
  requested (limit query) 2 = Some l ->
  loaded (file w) = Some all ->
  Exists (fun item => ~ has_name item) all ->
  (exists err w',
     getItems query w = (inl err, w')
     /\ status err = None
     /\ fst (route 200 (getItems query) w) = Failed 500 (message err)
     /\ readFile_calls w' = S (readFile_calls w))
  /\ fst (route 200 (getItems {| page := page query; limit := limit query; q := None |}) w)
     = Sent 200 (paginate all p l).
Proof.
  intros Hq Htext Hp Hl Hload Hex. split.
  - destruct (readData_loaded w all Hload) as (w' & Hread & Hcalls & _).
    destruct (search_throws text all w' Htext Hex) as (err & Hsearch & Hs & Hm).
    assert (Hrun : getItems query w = (inl err, w')).
    { rewrite (getItems_valid query w p l Hp Hl). unfold bind.
      now rewrite Hread, Hq, Hsearch. }
    exists err, w'. split; [exact Hrun|]. split; [exact Hs|]. split; [|exact Hcalls].
    unfold route. rewrite Hrun. simpl. now apply errorHandler_500.
  - destruct (getItems_run {| page := page query; limit := limit query; q := None |}
                w p l all Hp Hl Hload I) as (w' & Hrun & _).
    unfold route. now rewrite Hrun.
Qed.

Lemma search_fails_on_a_record_without_name_witness :
  (exists err w',
     getItems {| page := None; limit := None; q := Some "mo" |}
       {| file := Stored [Scenario.Mouse; ∅]; write_failure := None; clock := 0;
          readFile_calls := 0; writeFile_calls := 0; console := [] |}
     = (inl err, w')
     /\ status err = None
     /\ fst (route 200 (getItems {| page := None; limit := None; q := Some "mo" |})
               {| file := Stored [Scenario.Mouse; ∅]; write_failure := None; clock := 0;
                  readFile_calls := 0; writeFile_calls := 0; console := [] |})
        = Failed 500 (message err)
     /\ readFile_calls w' = 1%nat)
  /\ fst (route 200 (getItems {| page := None; limit := None; q := None |})
            {| file := Stored [Scenario.Mouse; ∅]; write_failure := None; clock := 0;
               readFile_calls := 0; writeFile_calls := 0; console := [] |})
     = Sent 200 (paginate [Scenario.Mouse; ∅] 1 2).
Proof.
  apply (search_fails_on_a_record_without_name
           {| page := None; limit := None; q := Some "mo" |}
           {| file := Stored [Scenario.Mouse; ∅]; write_failure := None; clock := 0;
              readFile_calls := 0; writeFile_calls := 0; console := [] |}
           "mo" 1 2 [Scenario.Mouse; ∅]).
  - reflexivity.
  - discriminate.
  - reflexivity.
  - reflexivity.
  - reflexivity.
  - apply Exists_cons_tl, Exists_cons_hd. intros [name H]. discriminate H.
Defined.

Lemma readData_missing (w : World) :
  file w = NoFile ->
  exists w', readData w = (inr [], w')
             /\ console w' = console w ++ [DataFileNotFound]
             /\ readFile_calls w' = S (readFile_calls w)
             /\ file w' = NoFile /\ clock w' = clock w
             /\ write_failure w' = write_failure w.
Proof.
  intros H. unfold readData. rewrite H. eexists. split; [reflexivity|].
  simpl. auto.
Qed.

Lemma search_nothing (text : option string) (w : World) :
  search text [] w = (inr [], w).
Proof. destruct text as [[|c text]|]; reflexivity. Qed.

(** X9. A data file that does not exist counts as an empty store and is
    reported on the console: a query with valid page and limit is answered
    with the empty page, whatever its search text; every lookup by id is
    answered 404; the statistics are [{ total: 0, averagePrice: 0 }]; and
    a creation that is saved leaves a file holding the one new record. *)
Theorem missing_file_is_an_empty_store (w : World) :
  file w = NoFile ->
  (forall query p l,
      requested (page query) 1 = Some p ->
      requested (limit query) 2 = Some l ->
      exists w',
        getItems query w
        = (inr {| items := []; currentPage := 1; itemsPerPage := l; totalItems := 0;
                  totalPages := 0; hasPreviousPage := false; hasNextPage := false |}, w')
        /\ console w' = console w ++ [DataFileNotFound])
  /\ (forall id, fst (route 200 (getItemById id) w) = Failed 404 "Item not found")
  /\ answer <$> calls (run (worker_reply (getStats w)) (getStats w))
     = [Sent 200 {| total := 0; averagePrice := ofZ 0 |}]
  /\ console (world (getStats w)) = console w ++ [DataFileNotFound]
  /\ (forall item,
        accepted item -> write_failure w = None ->
        exists w',
          postItem item w = (inr (<["id" := JNum (ofZ (clock w))]> item), w')
          /\ file w' = Stored [<["id" := JNum (ofZ (clock w))]> item]).
Proof.
  intros Hfile.
  destruct (readData_missing w Hfile) as (w' & Hread & Hconsole & _).
  assert (Hload : loaded (file w) = Some []) by now rewrite Hfile.
  split.
  { intros query p l Hp Hl. exists w'. split; [|exact Hconsole].
    rewrite (getItems_valid query w p l Hp Hl). unfold bind.
    rewrite Hread, search_nothing. reflexivity. }
  split.
  { intros id. unfold route, getItemById, bind. rewrite Hread. reflexivity. }
  split.
  { unfold getStats, worker_reply. rewrite Hread. reflexivity. }
  split.
  { unfold getStats. rewrite Hread. exact Hconsole. }
  intros item Hok Hwrite.
  destruct (postItem_accepts item w [] Hok Hload Hwrite) as (w'' & Hrun & Hstored & _).
  now exists w''.
Qed.

Lemma missing_file_is_an_empty_store_witness :
  (forall query p l,
      requested (page query) 1 = Some p ->
      requested (limit query) 2 = Some l ->
      exists w',
        getItems query
          {| file := NoFile; write_failure := None; clock := 5;
             readFile_calls := 0; writeFile_calls := 0; console := [] |}
        = (inr {| items := []; currentPage := 1; itemsPerPage := l; totalItems := 0;
                  totalPages := 0; hasPreviousPage := false; hasNextPage := false |}, w')
        /\ console w' = [] ++ [DataFileNotFound])
  /\ (forall id,
        fst (route 200 (getItemById id)
               {| file := NoFile; write_failure := None; clock := 5;
                  readFile_calls := 0; writeFile_calls := 0; console := [] |})
        = Failed 404 "Item not found")
  /\ answer <$> calls (run (worker_reply
                             (getStats {| file := NoFile; write_failure := None; clock := 5;
                                          readFile_calls := 0; writeFile_calls := 0;
                                          console := [] |}))
                         (getStats {| file := NoFile; write_failure := None; clock := 5;
                                      readFile_calls := 0; writeFile_calls := 0;
                                      console := [] |}))
     = [Sent 200 {| total := 0; averagePrice := ofZ 0 |}]
  /\ console (world (getStats {| file := NoFile; write_failure := None; clock := 5;
                                 readFile_calls := 0; writeFile_calls := 0;
                                 console := [] |}))
     = [] ++ [DataFileNotFound]
  /\ (forall item,
        accepted item -> None = (None : option string) ->
        exists w',
          postItem item
            {| file := NoFile; write_failure := None; clock := 5;
               readFile_calls := 0; writeFile_calls := 0; console := [] |}
          = (inr (<["id" := JNum (ofZ 5)]> item), w')
          /\ file w' = Stored [<["id" := JNum (ofZ 5)]> item]).
Proof.
  apply (missing_file_is_an_empty_store
           {| file := NoFile; write_failure := None; clock := 5;
              readFile_calls := 0; writeFile_calls := 0; console := [] |}).
  reflexivity.
Defined.

End Failures.

Section LoadFailure.
Import JS Store Items Worker StatsRoute Spec.

Lemma readData_fails (w : World) (reason : string) :
  file w = Unreadable reason ->
  exists w', readData w = (inl {| message := reason; status := None |}, w')
             /\ file w' = file w /\ writeFile_calls w' = writeFile_calls w.
Proof.
  intros H. unfold readData. rewrite H. eexists. split; [reflexivity|]. simpl. auto.
Qed.

(** X10. When the data file cannot be read or parsed, every route
    answers 500 with the reason of the failure (or "Internal Server Error"
    for an empty reason): the query with valid page and limit, the lookup
    by id, the creation of an accepted body, which then writes nothing,
    and the statistics, for which no worker is created. *)
Theorem unreadable_file_is_answered_500 (w : World) (reason : string) :
  file w = Unreadable reason ->
  (forall query p l,
      requested (page query) 1 = Some p ->
      requested (limit query) 2 = Some l ->
      fst (route 200 (getItems query) w)
      = Failed 500 (if String.eqb reason "" then "Internal Server Error" else reason))
  /\ (forall id,
        fst (route 200 (getItemById id) w)
        = Failed 500 (if String.eqb reason "" then "Internal Server Error" else reason))
  /\ (forall item,
        accepted item ->
        fst (route 201 (postItem item) w)
        = Failed 500 (if String.eqb reason "" then "Internal Server Error" else reason)
        /\ writeFile_calls (snd (postItem item w)) = writeFile_calls w
        /\ file (snd (postItem item w)) = file w)
  /\ (calls (getStats w) = [next {| message := reason; status := None |}]
      /\ answer <$> calls (getStats w)
         = [Failed 500 (if String.eqb reason "" then "Internal Server Error" else reason)]
      /\ workers (getStats w) = 0%nat
      /\ posted (getStats w) = []).
Proof.
  intros Hfile. destruct (readData_fails w reason Hfile) as (w' & Hread & Hsame & Hwrites).
  split.
  { intros query p l Hp Hl. unfold route.
    rewrite (getItems_valid query w p l Hp Hl). unfold bind. rewrite Hread. reflexivity. }
  split.
  { intros id. unfold route, getItemById, bind. rewrite Hread. reflexivity. }
  split.
  { intros item Hok. unfold accepted in Hok.
    rewrite <- !not_a_filled_string_false, <- not_a_positive_number_false in Hok.
    destruct Hok as (Hname & Hprice & Hdescription).
    unfold route, postItem. rewrite Hname, Hprice, Hdescription.
    unfold bind. rewrite Hread. simpl. auto. }
  unfold getStats. rewrite Hread. repeat split; reflexivity.
Qed.

Lemma unreadable_file_is_answered_500_witness :
  (forall query p l,
      requested (page query) 1 = Some p ->
      requested (limit query) 2 = Some l ->
      fst (route 200 (getItems query)
             {| file := Unreadable "Unexpected end of JSON input"; write_failure := None;
                clock := 5; readFile_calls := 0; writeFile_calls := 0; console := [] |})
      = Failed 500 "Unexpected end of JSON input")
  /\ (forall id,
        fst (route 200 (getItemById id)
               {| file := Unreadable "Unexpected end of JSON input"; write_failure := None;
                  clock := 5; readFile_calls := 0; writeFile_calls := 0; console := [] |})
        = Failed 500 "Unexpected end of JSON input")
  /\ (forall item,
        accepted item ->
        fst (route 201 (postItem item)
               {| file := Unreadable "Unexpected end of JSON input"; write_failure := None;
                  clock := 5; readFile_calls := 0; writeFile_calls := 0; console := [] |})
        = Failed 500 "Unexpected end of JSON input"
        /\ writeFile_calls
             (snd (postItem item
                     {| file := Unreadable "Unexpected end of JSON input";
                        write_failure := None; clock := 5; readFile_calls := 0;
                        writeFile_calls := 0; console := [] |})) = 0%nat
        /\ file (snd (postItem item
                        {| file := Unreadable "Unexpected end of JSON input";
                           write_failure := None; clock := 5; readFile_calls := 0;
                           writeFile_calls := 0; console := [] |}))
           = Unreadable "Unexpected end of JSON input")
  /\ (calls (getStats {| file := Unreadable "Unexpected end of JSON input";
                         write_failure := None; clock := 5; readFile_calls := 0;
                         writeFile_calls := 0; console := [] |})
      = [next {| message := "Unexpected end of JSON input"; status := None |}]
      /\ answer <$> calls (getStats {| file := Unreadable "Unexpected end of JSON input";
                                       write_failure := None; clock := 5;
                                       readFile_calls := 0; writeFile_calls := 0;
                                       console := [] |})
         = [Failed 500 "Unexpected end of JSON input"]
      /\ workers (getStats {| file := Unreadable "Unexpected end of JSON input";
                              write_failure := None; clock := 5; readFile_calls := 0;
                              writeFile_calls := 0; console := [] |}) = 0%nat
      /\ posted (getStats {| file := Unreadable "Unexpected end of JSON input";
                             write_failure := None; clock := 5; readFile_calls := 0;
                             writeFile_calls := 0; console := [] |}) = []).
Proof.
  apply (unreadable_file_is_answered_500
           {| file := Unreadable "Unexpected end of JSON input"; write_failure := None;
              clock := 5; readFile_calls := 0; writeFile_calls := 0; console := [] |}
           "Unexpected end of JSON input").
  reflexivity.
Defined.

Lemma readData_frame (w : World) :
  file (snd (readData w)) = file w
  /\ clock (snd (readData w)) = clock w
  /\ write_failure (snd (readData w)) = write_failure w
  /\ writeFile_calls (snd (readData w)) = writeFile_calls w
  /\ readFile_calls (snd (readData w)) = S (readFile_calls w).
Proof. unfold readData. destruct (file w) eqn:H; simpl; rewrite ?H; auto. Qed.

Lemma on_event_frame (ev : worker_event) (r : Request) :
  file (world (on_event ev r)) = file (world r)
  /\ clock (world (on_event ev r)) = clock (world r)
  /\ writeFile_calls (world (on_event ev r)) = writeFile_calls (world r)
  /\ readFile_calls (world (on_event ev r)) = readFile_calls (world r).
Proof.
  destruct ev as [stats|err|code]; simpl; auto.
  destruct (code =? 0); simpl; auto.
Qed.

(** X11. The three GET routes only read.  Whatever the request, the file,
    the clock and the count of [writeFile] calls are as before; the query
    makes at most one [readFile] call; the lookup by id makes exactly one,
    also for an id that is not a number; the statistics route makes
    exactly one, whatever the worker then does. *)
Theorem get_routes_only_read (w : World) :
  (forall query,
      file (snd (getItems query w)) = file w
      /\ clock (snd (getItems query w)) = clock w
      /\ writeFile_calls (snd (getItems query w)) = writeFile_calls w
      /\ (readFile_calls (snd (getItems query w)) = readFile_calls w
          \/ readFile_calls (snd (getItems query w)) = S (readFile_calls w)))
  /\ (forall id,
        file (snd (getItemById id w)) = file w
        /\ clock (snd (getItemById id w)) = clock w
        /\ writeFile_calls (snd (getItemById id w)) = writeFile_calls w
        /\ readFile_calls (snd (getItemById id w)) = S (readFile_calls w))
  /\ (forall events,
        file (world (run events (getStats w))) = file w
        /\ clock (world (run events (getStats w))) = clock w
        /\ writeFile_calls (world (run events (getStats w))) = writeFile_calls w
        /\ readFile_calls (world (run events (getStats w))) = S (readFile_calls w)).
Proof.
  destruct (readData_frame w) as (Hfile & Hclock & _ & Hwrites & Hreads).
  split.
  { intros query.
    destruct (requested (page query) 1) as [p|] eqn:Hp;
      [destruct (requested (limit query) 2) as [l|] eqn:Hl|].
    - rewrite (getItems_valid query w p l Hp Hl). unfold bind.
      destruct (readData w) as [[e|all] w1]; simpl in *; [auto|].
      pose proof (search_world (q query) all w1) as Hsearch.
      destruct (search (q query) all w1) as [[e|filtered] w2]; simpl in *; subst w2; auto.
    - rewrite getItems_invalid by now right. simpl. auto.
    - rewrite getItems_invalid by now left. simpl. auto. }
  split.
  { intros id. unfold getItemById, bind.
    destruct (readData w) as [[e|all] w1]; simpl in *; [auto|].
    destruct (List.find (id_is (parseInt id)) all); simpl; auto. }
  intros events.
  assert (Hstart : file (world (getStats w)) = file w
                   /\ clock (world (getStats w)) = clock w
                   /\ writeFile_calls (world (getStats w)) = writeFile_calls w
                   /\ readFile_calls (world (getStats w)) = S (readFile_calls w)).
  { unfold getStats. destruct (readData w) as [[e|all] w1]; simpl in *; auto. }
  revert Hstart. generalize (getStats w). induction events as [|ev events IH]; intros r Hr.
  - exact Hr.
  - change (run (ev :: events) r) with (run events (on_event ev r)).
    apply IH. destruct (on_event_frame ev r) as (-> & -> & -> & ->). exact Hr.
Qed.

(** X12. Over a loaded store, the lookup answers 200 only with a record
    of the store whose [id] is the number the path parameter parses to;
    a path parameter that does not start with a number is answered 404;
    a record whose [id] is a string is never the answer. *)
Theorem lookup_answers_only_the_id_asked (id : string) (w : World) (data : list object) :
  loaded (file w) = Some data ->
  (forall item,
      fst (route 200 (getItemById id) w) = Sent 200 item ->
      item ∈ data
      /\ exists z, parseInt id = Some z /\ item !! "id" = Some (JNum (ofZ z)))
  /\ (parseInt id = None ->
      fst (route 200 (getItemById id) w) = Failed 404 "Item not found")
  /\ (forall item text,
        item !! "id" = Some (JStr text) ->
        fst (route 200 (getItemById id) w) <> Sent 200 item).
Proof.
  intros Hload. destruct (readData_loaded w data Hload) as (w' & Hread & _).
  assert (Hsound : forall item,
             fst (route 200 (getItemById id) w) = Sent 200 item ->
             item ∈ data
             /\ exists z, parseInt id = Some z /\ item !! "id" = Some (JNum (ofZ z))).
  { intros item. unfold route, getItemById, bind. rewrite Hread.
    destruct (List.find (id_is (parseInt id)) data) as [found|] eqn:Hfind;
      simpl; [|discriminate].
    intros [= <-]. apply find_some in Hfind as [Hin Hid].
    split; [now apply list_elem_of_In | now apply id_is_exact]. }
  split; [exact Hsound|]. split.
  - intros Hnan. unfold route, getItemById, bind. rewrite Hread, Hnan.
    assert (Hnone : List.find (id_is None) data = None)
      by (apply find_nothing, Forall_forall; intros item _; unfold id_is;
          destruct (item !! "id") as [[]|]; reflexivity).
    rewrite Hnone. reflexivity.
  - intros item text Htext Hsent. apply Hsound in Hsent as (_ & z & _ & Hid). congruence.
Qed.

Lemma lookup_answers_only_the_id_asked_witness :
  (forall item,
      fst (route 200 (getItemById "abc") Scenario.world) = Sent 200 item ->
      item ∈ Scenario.records
      /\ exists z, parseInt "abc" = Some z /\ item !! "id" = Some (JNum (ofZ z)))
  /\ (parseInt "abc" = None ->
      fst (route 200 (getItemById "abc") Scenario.world) = Failed 404 "Item not found")
  /\ (forall item text,
        item !! "id" = Some (JStr text) ->
        fst (route 200 (getItemById "abc") Scenario.world) <> Sent 200 item).
Proof.
  apply (lookup_answers_only_the_id_asked "abc" Scenario.world Scenario.records).
  reflexivity.
Defined.

End LoadFailure.

(** ** From a record's id to its path and back *)

Section Paths.
Import JS Store Items Spec.

Lemma decimal_digits_acc (d : Decimal.uint) (acc : positive) :
  decimal_digits (NilEmpty.string_of_uint d) (Z.pos acc)
  = Some (Z.pos (Pos.of_uint_acc d acc)).
Proof.
  revert acc. induction d; intros acc; simpl NilEmpty.string_of_uint;
    [reflexivity | ..];
    (cbn [decimal_digits]; cbv [digit_value]; simpl N_of_ascii; cbv iota beta;
     simpl Z.leb; cbv iota beta; simpl andb; cbv iota;
     cbn [Pos.of_uint_acc]; rewrite <- IHd; f_equal; lia).
Qed.

Lemma decimal_digits_uint (d : Decimal.uint) :
  decimal_digits (NilEmpty.string_of_uint d) 0 = Some (Z.of_N (Pos.of_uint d)).
Proof.
  induction d; simpl NilEmpty.string_of_uint; [reflexivity | ..];
    cbn [decimal_digits]; cbv [digit_value]; simpl N_of_ascii; cbv iota beta;
    simpl Z.leb; cbv iota beta; simpl andb; cbv iota;
    cbn [Pos.of_uint]; [exact IHd | ..];
    (simpl Z.of_N; rewrite <- decimal_digits_acc; reflexivity).
Qed.

Lemma base10_integer_pos (p : positive) :
  base10_integer (Number_toString (Z.pos p)) = Some (Z.pos p).
Proof.
  unfold Number_toString. simpl Z.to_int. cbn [NilZero.string_of_int].
  pose proof (Unsigned.of_to p) as Hback.
  pose proof (Unsigned.to_uint_nonnil p) as Hnonnil.
  pose proof (decimal_digits_uint (Pos.to_uint p)) as Hdigits.
  rewrite Hback in Hdigits. simpl Z.of_N in Hdigits.
  destruct (Pos.to_uint p); [congruence | ..]; exact Hdigits.
Qed.

Lemma base10_integer_neg (p : positive) :
  base10_integer (Number_toString (Z.neg p)) = Some (Z.neg p).
Proof.
  unfold Number_toString. simpl Z.to_int. cbn [NilZero.string_of_int].
  pose proof (Unsigned.of_to p) as Hback.
  pose proof (Unsigned.to_uint_nonnil p) as Hnonnil.
  pose proof (decimal_digits_uint (Pos.to_uint p)) as Hdigits.
  rewrite Hback in Hdigits. simpl Z.of_N in Hdigits.
  destruct (Pos.to_uint p); [congruence | ..];
    (unfold NilZero.string_of_uint;
     change (base10_integer (String "-" ?s)) with (option_map Z.opp (decimal_digits s 0));
     rewrite Hdigits; reflexivity).
Qed.

(** The text written for an integer is a base-10 integer, and [parseInt]
    reads the integer back from it. *)
Lemma parseInt_Number_toString (n : Z) :
  base10_integer (Number_toString n) = Some n
  /\ parseInt (Number_toString n) = Some n.
Proof.
  assert (H : base10_integer (Number_toString n) = Some n).
  { destruct n as [|p|p];
      [reflexivity | apply base10_integer_pos | apply base10_integer_neg]. }
  split; [exact H | now apply parseInt_base10_integer].
Qed.

End Paths.

(** ** Creation, then lookup and listing *)

Section AfterCreation.
Import JS Store Items Spec.

Lemma id_is_created (item : object) (z : Z) :
  id_is (Some z) (<["id" := JNum (ofZ z)]> item) = true.
Proof. apply id_is_exact. exists z. split; [reflexivity | apply lookup_insert_eq]. Qed.

Lemma find_app_last {A} (test : A -> bool) (l : list A) (x : A) :
  test x = true ->
  exists found, List.find test (l ++ [x]) = Some found
                /\ test found = true
                /\ (Forall (fun y => test y = false) l -> found = x).
Proof.
  intros Hx. induction l as [|y l IH]; simpl.
  - rewrite Hx. now exists x.
  - destruct (test y) eqn:Hy.
    + exists y. split; [reflexivity|]. split; [exact Hy|].
      intros H. apply Forall_cons in H as [H _]. congruence.
    + destruct IH as (found & Hfind & Htest & Hlast). exists found.
      split; [exact Hfind|]. split; [exact Htest|].
      intros H. apply Forall_cons in H as [_ H]. now apply Hlast.
Qed.

(** X13. After a creation that is saved, the path written for the new id
    leads to a record with that id: [GET /api/items/<id>] is answered 200
    with a record whose [id] is the one given at creation.  When no
    stored record had that id before, the same request was answered 404
    before the creation, and the record now found carries the name and
    the description of the body. *)
Theorem created_record_can_be_looked_up (item : object) (w : World) (data : list object) :
  accepted item ->
  loaded (file w) = Some data ->
  write_failure w = None ->
  exists created w' found,
    postItem item w = (inr created, w')
    /\ parseInt (Number_toString (clock w)) = Some (clock w)
    /\ fst (route 200 (getItemById (Number_toString (clock w))) w') = Sent 200 found
    /\ found !! "id" = created !! "id"
    /\ (Forall (fun other => id_is (Some (clock w)) other = false) data ->
        fst (route 200 (getItemById (Number_toString (clock w))) w)
        = Failed 404 "Item not found"
        /\ found !! "name" = item !! "name"
        /\ found !! "description" = item !! "description").
Proof.
  intros Hok Hload Hwrite.
  destruct (postItem_accepts item w data Hok Hload Hwrite) as (w' & Hrun & Hfile & _).
  destruct (parseInt_Number_toString (clock w)) as [_ Hparse].
  set (created := <["id" := JNum (ofZ (clock w))]> item) in *.
  destruct (find_app_last (id_is (Some (clock w))) data created
              (id_is_created item (clock w))) as (found & Hfind & Hid & Hlast).
  assert (Hload' : loaded (file w') = Some (data ++ [created])) by now rewrite Hfile.
  destruct (readData_loaded w' _ Hload') as (w'' & Hread' & _).
  exists created, w', found.
  split; [exact Hrun|]. split; [exact Hparse|]. split.
  { unfold route, getItemById, bind. rewrite Hread', Hparse, Hfind. reflexivity. }
  split.
  { apply id_is_exact in Hid as (z & [= <-] & ->). unfold created.
    now rewrite lookup_insert_eq. }
  intros Hfresh. split.
  - destruct (readData_loaded w data Hload) as (w0 & Hread & _).
    unfold route, getItemById, bind. rewrite Hread, Hparse.
    apply find_nothing in Hfresh. rewrite Hfresh. reflexivity.
  - rewrite (Hlast Hfresh). unfold created.
    split; now rewrite lookup_insert_ne.
Qed.

Lemma created_record_can_be_looked_up_witness :
  exists created w' found,
    postItem Scenario.monitor Scenario.world = (inr created, w')
    /\ parseInt (Number_toString (clock Scenario.world)) = Some (clock Scenario.world)
    /\ fst (route 200 (getItemById (Number_toString (clock Scenario.world))) w')
       = Sent 200 found
    /\ found !! "id" = created !! "id"
    /\ (Forall (fun other => id_is (Some (clock Scenario.world)) other = false)
          Scenario.records ->
        fst (route 200 (getItemById (Number_toString (clock Scenario.world)))
               Scenario.world)
        = Failed 404 "Item not found"
        /\ found !! "name" = Scenario.monitor !! "name"
        /\ found !! "description" = Scenario.monitor !! "description").
Proof.
  apply (created_record_can_be_looked_up Scenario.monitor Scenario.world Scenario.records).
  - repeat split; eexists; (split; [reflexivity|]);
      [discriminate | right; eexists; split; [reflexivity | reflexivity] | discriminate].
  - reflexivity.
  - reflexivity.
Defined.

Lemma accepted_has_name (item : object) (z : Z) :
  accepted item -> has_name (<["id" := JNum (ofZ z)]> item).
Proof.
  intros ((name & Hname & _) & _). exists name. now rewrite lookup_insert_ne.
Qed.

Lemma selected_app (text : option string) (data more : list object) :
  selected text (data ++ more) = selected text data ++ selected text more.
Proof.
  destruct text as [[|c text]|]; try reflexivity.
  unfold selected. rewrite !filter_as_stdpp. apply filter_app.
Qed.

(** X14. A creation that is saved adds one record to what a query
    counts, when the query has no search text or the new name contains
    the search text, and nothing otherwise: [totalItems] after the
    creation is [totalItems] before it plus one, or the same. *)
Theorem creation_is_counted_by_the_queries
    (item : object) (query : Query) (w : World) (p l : Z) (data : list object) :
  accepted item ->
  loaded (file w) = Some data ->
  write_failure w = None ->
  requested (page query) 1 = Some p ->
  requested (limit query) 2 = Some l ->
  searchable (q query) data ->
  exists before created after w1 w2 w3,
    getItems query w = (inr before, w1)
    /\ postItem item w = (inr created, w2)
    /\ getItems query w2 = (inr after, w3)
    /\ totalItems after
       = totalItems before
         + match q query with
           | None | Some EmptyString => 1
           | Some text => if name_includes text item then 1 else 0
           end.
Proof.
  intros Hok Hload Hwrite Hp Hl Hsearch.
  destruct (getItems_run query w p l data Hp Hl Hload Hsearch) as (w1 & Hbefore & _).
  destruct (postItem_accepts item w data Hok Hload Hwrite) as (w2 & Hrun & Hfile & _).
  set (created := <["id" := JNum (ofZ (clock w))]> item) in *.
  assert (Hload2 : loaded (file w2) = Some (data ++ [created])) by now rewrite Hfile.
  assert (Hsearch2 : searchable (q query) (data ++ [created])).
  { destruct (q query) as [[|c text]|]; simpl in *; auto.
    apply Forall_app. split; [exact Hsearch|].
    constructor; [|constructor]. now apply accepted_has_name. }
  destruct (getItems_run query w2 p l _ Hp Hl Hload2 Hsearch2) as (w3 & Hafter & _).
  eexists _, created, _, w1, w2, w3.
  split; [exact Hbefore|]. split; [exact Hrun|]. split; [exact Hafter|].
  rewrite !paginate_totalItems, selected_app, length_app, Nat2Z.inj_add. f_equal.
  destruct (q query) as [[|c text]|]; try reflexivity.
  simpl. unfold name_includes, created. rewrite lookup_insert_ne by discriminate.
  destruct (item !! "name") as [[| | |name| |]|]; try reflexivity.
  destruct (includes (toLowerCase name) (toLowerCase (String c text))); reflexivity.
Qed.

Lemma creation_is_counted_by_the_queries_witness :
  exists before created after w1 w2 w3,
    getItems {| page := None; limit := None; q := Some "mo" |} Scenario.world
    = (inr before, w1)
    /\ postItem Scenario.monitor Scenario.world = (inr created, w2)
    /\ getItems {| page := None; limit := None; q := Some "mo" |} w2 = (inr after, w3)
    /\ totalItems after
       = totalItems before + (if name_includes "mo" Scenario.monitor then 1 else 0).
Proof.
  apply (creation_is_counted_by_the_queries
           Scenario.monitor {| page := None; limit := None; q := Some "mo" |}
           Scenario.world 1 2 Scenario.records).
  - repeat split; eexists; (split; [reflexivity|]);
      [discriminate | right; eexists; split; [reflexivity | reflexivity] | discriminate].
  - reflexivity.
  - reflexivity.
  - reflexivity.
  - reflexivity.
  - repeat constructor; eexists; reflexivity.
Defined.

End AfterCreation.

(** ** The checks of a creation, one after the other *)

Section Checks.
Import JS Store Items Spec.

Lemma postItem_passed (item : object) (w : World) (err : Error) :
  not_a_filled_string (item !! "name") = false ->
  not_a_positive_number (item !! "price") = false ->
  not_a_filled_string (item !! "description") = false ->
  fst (postItem item w) = inl err -> status err = None.
Proof.
  intros Hname Hprice Hdescription. unfold postItem.
  rewrite Hname, Hprice, Hdescription. unfold bind, readData, Date_now, writeData.
  destruct (file w); simpl; try (intros [= <-]; reflexivity);
    destruct (write_failure w); simpl; try discriminate; intros [= <-]; reflexivity.
Qed.


(** X15. The three checks of a creation run in the order name, price,
    description, and the error names the first that fails: "Item name is
    required..." exactly when the name is not a filled string; "Item price
    is required..." exactly when the name is fine and the price is not a
    number above zero; "Item category is required..." exactly when name
    and price are fine and the description is not a filled string. *)
Theorem create_reports_the_first_failing_field (item : object) (w : World) :
  (fst (postItem item w) = inl name_required
   <-> ~ filled_string (item !! "name"))
  /\ (fst (postItem item w) = inl price_required
      <-> filled_string (item !! "name") /\ ~ positive_number (item !! "price"))
  /\ (fst (postItem item w) = inl description_required
      <-> filled_string (item !! "name") /\ positive_number (item !! "price")
          /\ ~ filled_string (item !! "description")).
Proof.
  rewrite <- !not_a_filled_string_false, <- not_a_positive_number_false.
  assert (Hnp : name_required <> price_required) by (intros [=]).
  assert (Hnd : name_required <> description_required) by (intros [=]).
  assert (Hpd : price_required <> description_required) by (intros [=]).
  pose proof (postItem_passed item w) as Hpassed.
  destruct (not_a_filled_string (item !! "name")) eqn:Hname.
  { assert (Hfst : fst (postItem item w) = inl name_required)
      by (unfold postItem; now rewrite Hname).
    rewrite Hfst. intuition congruence. }
  destruct (not_a_positive_number (item !! "price")) eqn:Hprice.
  { assert (Hfst : fst (postItem item w) = inl price_required)
      by (unfold postItem; now rewrite Hname, Hprice).
    rewrite Hfst. intuition congruence. }
  destruct (not_a_filled_string (item !! "description")) eqn:Hdescription.
  { assert (Hfst : fst (postItem item w) = inl description_required)
      by (unfold postItem; now rewrite Hname, Hprice, Hdescription).
    rewrite Hfst. intuition congruence. }
  assert (Hnone : forall err, status err = Some 400%nat ->
                              fst (postItem item w) <> inl err).
  { intros err Hs Hfst. apply Hpassed in Hfst; auto. congruence. }
  pose proof (Hnone name_required eq_refl).
  pose proof (Hnone price_required eq_refl).
  pose proof (Hnone description_required eq_refl).
  intuition congruence.
Qed.







End Checks.

(** ** More on the worker *)

Section WorkerEdges.
Import JS Store Worker StatsRoute Spec.

Lemma num_add_NaN_r (a : number) : num_add a NaN = NaN.
Proof. destruct a as [|[]|x]; reflexivity. Qed.

Lemma sum_with_a_missing_price (items : list object) (acc : number) :
  Forall (fun item : object => is_Some (addend (item !! "price"))) items ->
  exists total,
    fold_left
      (fun acc cur =>
         match acc, addend (cur !! "price") with
         | Some acc, Some price => Some (num_add acc price)
         | _, _ => None
         end)
      items (Some acc)
    = Some total
    /\ (acc = NaN -> total = NaN)
    /\ (Exists (fun item : object => item !! "price" = None) items -> total = NaN).
Proof.
  intros Hall. revert acc. induction Hall as [|item items [price Hprice] _ IH]; intros acc.
  - exists acc. split; [reflexivity|]. split; [auto|]. intros H. now apply Exists_nil in H.
  - simpl. rewrite Hprice.
    destruct (IH (num_add acc price)) as (total & Hfold & Hnan & Hmissing).
    exists total. split; [exact Hfold|]. split.
    + intros ->. now apply Hnan.
    + intros H. apply Exists_cons in H as [Hhead | Htail]; [|now apply Hmissing].
      rewrite Hhead in Hprice. injection Hprice as <-.
      apply Hnan, num_add_NaN_r.
Qed.

(** X17. When one record has no [price] at all, and every other price is
    a number, [null] or a boolean, the worker still posts a result: the
    count of the records, with [NaN] as the average. *)
Theorem missing_price_makes_the_average_NaN (items : list object) :
  Forall (fun item : object => is_Some (addend (item !! "price"))) items ->
  Exists (fun item : object => item !! "price" = None) items ->
  Worker.on_message items = Some {| total := length items; averagePrice := NaN |}.
Proof.
  intros Hall Hmissing.
  destruct (sum_with_a_missing_price items (ofZ 0) Hall) as (total & Hfold & _ & Hnan).
  unfold Worker.on_message, sumPrices. rewrite Hfold, (Hnan Hmissing).
  destruct items as [|item items]; [now apply Exists_nil in Hmissing|].
  reflexivity.
Qed.

Lemma missing_price_makes_the_average_NaN_witness :
  Worker.on_message [Scenario.Laptop; delete "price" Scenario.Mouse]
  = Some {| total := length [Scenario.Laptop; delete "price" Scenario.Mouse];
            averagePrice := NaN |}.
Proof.
  apply (missing_price_makes_the_average_NaN
           [Scenario.Laptop; delete "price" Scenario.Mouse]).
  - repeat constructor; eexists; reflexivity.
  - apply Exists_cons_tl, Exists_cons_hd. reflexivity.
Defined.

Lemma on_event_terminated (ev : worker_event) (r : Request) :
  terminated (on_event ev r) = (terminated r + length (option_list (answer_to ev)))%nat.
Proof.
  destruct ev as [stats|err|code]; simpl; try lia.
  destruct (code =? 0); simpl; lia.
Qed.

(** X18. The worker is terminated once with every answer and at no other
    time: over any sequence of worker events, [worker.terminate()] has
    been called as many times as [res.json] and [next] together, so that
    an exit event alone neither answers nor terminates. *)
Theorem worker_is_terminated_with_every_answer
    (w : World) (items : list object) (events : list worker_event) :
  loaded (file w) = Some items ->
  terminated (run events (getStats w)) = length (calls (run events (getStats w)))
  /\ terminated (run events (getStats w)) = length (omap answer_to events)
  /\ (forall code, terminated (run [Exit code] (getStats w)) = 0%nat).
Proof.
  intros Hload. destruct (readData_loaded w items Hload) as (w' & Hread & _).
  assert (Hstart : terminated (getStats w) = 0%nat /\ calls (getStats w) = [])
    by (unfold getStats; rewrite Hread; auto).
  assert (Hrun : forall evs r,
             terminated (run evs r) = (terminated r + length (omap answer_to evs))%nat).
  { induction evs as [|ev evs IH]; intros r; [simpl; lia|].
    change (run (ev :: evs) r) with (run evs (on_event ev r)).
    rewrite IH, on_event_terminated. destruct ev; simpl; unfold omap; lia. }
  destruct Hstart as [Hzero Hnone].
  rewrite run_calls, Hnone, !Hrun, Hzero. simpl.
  repeat split; try reflexivity.
  intros code. destruct (code =? 0); exact Hzero.
Qed.

Lemma worker_is_terminated_with_every_answer_witness :
  terminated (run [Message {| total := 3; averagePrice := ofZ 425 |}; Exit 1]
                (getStats Scenario.world))
  = length (calls (run [Message {| total := 3; averagePrice := ofZ 425 |}; Exit 1]
                     (getStats Scenario.world)))
  /\ terminated (run [Message {| total := 3; averagePrice := ofZ 425 |}; Exit 1]
                   (getStats Scenario.world))
     = length (omap answer_to [Message {| total := 3; averagePrice := ofZ 425 |}; Exit 1])
  /\ (forall code, terminated (run [Exit code] (getStats Scenario.world)) = 0%nat).
Proof.
  apply (worker_is_terminated_with_every_answer Scenario.world Scenario.records).
  reflexivity.
Defined.

End WorkerEdges.
